(** * abaqus_inside.py: helper functions for the Abaqus CAE interpreter

    A shallow embedding of [abaqus_inside.py].  Every function of the module
    is a short sequence of calls into objects owned by the host application
    ([session], [mdb], [odbAccess], an [Odb] handle), into the operating
    system ([os.rename], [os.path]) and into Python's library
    ([ast.literal_eval]), with a little post-processing in between (sorting,
    indexing, slicing, [str.replace], dict building).

    The post-processing is embedded as executable Rocq functions.  The host is
    an interface ([Host]): a state type with one oracle per host call.  The
    functions of the module run in a state-and-exception monad over a world
    made of the host state and the ordered log of the calls issued so far. *)

From stdpp Require Import gmap strings list fin_maps sorting.
From Stdlib Require Import ZArith Ascii QArith.QArith_base QArith.Qreduction.

#[local] Set Warnings "-clear-no-such-hyp".

#[local] Open Scope Z_scope.

(** ** Python exceptions and results *)

Inductive exn : Type :=
  | KeyError (key : string)
  | IndexError
  | ZeroDivisionError
  | AttributeError (attr : string)
  | ValueError
  | SyntaxError
  | OSError (msg : string)
  | OdbError (msg : string)
  | AbaqusException (msg : string).

Inductive Result (A : Type) : Type :=
  | Ok (a : A)
  | Raise (e : exn).
Arguments Ok {A} a.
Arguments Raise {A} e.

(** ** Host data, as far as the module reads it *)

(** Node coordinates are passed through untouched. *)
Definition Coordinates : Type := list Q.

(** [OdbMeshNode]: the two attributes read are [label] and [coordinates]. *)
Record OdbMeshNode := { label : Z; coordinates : Coordinates }.

(** [OdbSet]: [instanceNames] and [nodes], a sequence of node sequences. *)
Record OdbSet := { instanceNames : list string; nodes : list (list OdbMeshNode) }.

(** [odb.diagnosticData.jobTime] is known to the module through [str] only. *)
Record JobTime := { JobTime_str : string }.

(** A host repository ([session.odbs], [rootAssembly.nodeSets]): keyed
    entries in the host's iteration order. *)
Definition Repository (V : Type) : Type := list (string * V).

Record Odb := {
  name : string;
  diagnosticData_jobTime : JobTime;
  rootAssembly_nodeSets : Repository OdbSet
}.

(** A model of [mdb.models]. *)
Record Model := { model_name : string }.

(** What the functions accept where the source says "Odb object or path to
    one": a Python [str] or an [Odb]. *)
Inductive odb_ish : Type :=
  | Path (s : string)
  | Handle (o : Odb).

(** Python values produced by [ast.literal_eval].  A float is represented by
    the rational its decimal literal denotes; the rounding to a binary
    double is not modelled, and no property below depends on it. *)
#[local] Set Warnings "-register-all".
Inductive pyval : Type :=
  | PyNone
  | PyBool (b : bool)
  | PyInt (n : Z)
  | PyFloat (q : Q)
  | PyStr (s : string)
  | PyTuple (items : list pyval)
  | PyList (items : list pyval)
  | PyDict (items : list (pyval * pyval)).
#[local] Set Warnings "register-all".

(** Arguments of [print]. *)
Inductive printable : Type :=
  | PrStr (s : string)
  | PrInt (n : Z)
  | PrStrs (l : list string).

(** ** Calls issued to the host, the operating system and the console *)

Inductive Call : Type :=
  | CallLister (folder ext : string) (full_name_option sub_folders_option : bool)
  | CallIsUpgradeRequired (path : string)
  | CallOpenOdb (path : string) (readOnly : bool)
  | CallUpgradeOdb (existingOdbPath upgradedOdbPath : string)
  | CallRename (src dst : string)
  | CallCloseAll
  | CallChangeKey (model : Model) (fromName toName : string)
  | CallPrint (args : list printable).

(** ** The host interface

    [St] is the state of everything outside the module (session, model
    database, file system).  A call may change it and may raise; subscript and
    attribute reads ([session.odbs[k]], [.keys()], [.items()]) do not change
    it. *)

Class Host (St : Type) := {
  (* session.odbs[key] *)
  session_odbs_getitem : St → string → Result Odb;
  (* session.odbs.keys() *)
  session_odbs_keys : St → list string;
  (* session.openOdb(path, readOnly=...) *)
  session_openOdb : St → string → bool → Result Odb * St;
  (* session.upgradeOdb(existingOdbPath, upgradedOdbPath) *)
  session_upgradeOdb : St → string → string → Result unit * St;
  (* odbAccess.isUpgradeRequiredForOdb(path) *)
  odbAccess_isUpgradeRequiredForOdb : St → string → Result bool * St;
  (* mdb.models.items() *)
  mdb_models_items : St → list (string * Model);
  (* model.rootAssembly.sets.changeKey(fromName=..., toName=...) *)
  sets_changeKey : St → Model → string → string → Result unit * St;
  (* abaqusMacros.odbs_close_all_odbs() *)
  host_odbs_close_all_odbs : St → Result unit * St;
  (* tools_submodule.filesystem_tools.files_with_extension_lister *)
  host_files_with_extension_lister :
    St → string → string → bool → bool → Result (list string) * St;
  (* os.rename(src, dst) *)
  os_rename : St → string → string → Result unit * St;
  (* os.path.join, os.path.basename, os.path.splitext: platform dependent *)
  os_path_join : string → string → string;
  os_path_basename : string → string;
  os_path_splitext : string → string * string;
  (* ast.literal_eval *)
  ast_literal_eval : string → Result pyval
}.

(** ** The monad of the module's functions *)

Record World (St : Type) := mkWorld { host : St; log : list Call }.
Arguments mkWorld {St} host log.
Arguments host {St} w.
Arguments log {St} w.

Definition M (St A : Type) : Type := World St → Result A * World St.

Definition ret {St A} (a : A) : M St A := λ w, (Ok a, w).

Definition raise {St A} (e : exn) : M St A := λ w, (Raise e, w).

Definition bind {St A B} (m : M St A) (k : A → M St B) : M St B :=
  λ w, match m w with
       | (Ok a, w') => k a w'
       | (Raise e, w') => (Raise e, w')
       end.

Notation "'let!' x ':=' m 'in' k" := (bind m (λ x, k))
  (at level 10, x name, m at level 100, k at level 200).
Notation "m ';;' k" := (bind m (λ _, k))
  (at level 100, k at level 200, right associativity).

(** [try: m except e: handler e].  The handler decides which exceptions it
    takes; it re-raises the others. *)
Definition try_except {St A} (m : M St A) (handler : exn → M St A) : M St A :=
  λ w, match m w with
       | (Ok a, w') => (Ok a, w')
       | (Raise e, w') => handler e w'
       end.

(** A pure computation that may raise. *)
Definition lift {St A} (r : Result A) : M St A := λ w, (r, w).

(** A read of the host state; [read_result] for a read that may raise. *)
Definition read {St A} (f : St → A) : M St A := λ w, (Ok (f (host w)), w).
Definition read_result {St A} (f : St → Result A) : M St A := λ w, (f (host w), w).

(** A call: logged when issued, then answered by the host. *)
Definition call {St A} (c : Call) (f : St → Result A * St) : M St A :=
  λ w, let '(r, h') := f (host w) in (r, mkWorld h' (log w ++ [c])).

Definition print {St} (args : list printable) : M St unit :=
  λ w, (Ok tt, mkWorld (host w) (log w ++ [CallPrint args])).

(** [for x in l: body x] *)
Fixpoint for_each {St A} (l : list A) (body : A → M St unit) : M St unit :=
  match l with
  | [] => ret tt
  | x :: l' => body x ;; for_each l' body
  end.

(** [for x in l: acc = body acc x], for a loop that updates one variable. *)
Fixpoint for_fold {St A S} (l : list A) (acc : S) (body : S → A → M St S) : M St S :=
  match l with
  | [] => ret acc
  | x :: l' => let! acc' := body acc x in for_fold l' acc' body
  end.

(** [[x for x in l if p(x)]] *)
Fixpoint comprehension_if {St A} (l : list A) (p : A → M St bool) : M St (list A) :=
  match l with
  | [] => ret []
  | x :: l' =>
      let! b := p x in
      let! rest := comprehension_if l' p in
      ret (if b then x :: rest else rest)
  end.

(** ** Python built-ins used by the module *)

(** [repo[key]] and [repo.keys()] on a host repository held as data. *)
Fixpoint repo_getitem {V} (repo : Repository V) (key : string) : Result V :=
  match repo with
  | [] => Raise (KeyError key)
  | (k, v) :: repo' => if String.eqb k key then Ok v else repo_getitem repo' key
  end.

Definition repo_keys {V} (repo : Repository V) : list string := repo.*1.

(** [len(l)] *)
Definition len {A} (l : list A) : Z := Z.of_nat (List.length l).

(** [l[i]]: a negative index counts from the end, an index out of range
    raises [IndexError]. *)
Definition py_getitem {A} (l : list A) (i : Z) : Result A :=
  let j := if i <? 0 then i + len l else i in
  if (j <? 0) || (len l <=? j) then Raise IndexError
  else match l !! Z.to_nat j with
       | Some x => Ok x
       | None => Raise IndexError
       end.

(** [enumerate(l)] *)
Definition enumerate {A} (l : list A) : list (Z * A) :=
  imap (λ i x, (Z.of_nat i, x)) l.

(** [divmod(a, b)] on ints: floor division, the remainder has the sign of
    the divisor, a zero divisor raises. *)
Definition divmod (a b : Z) : Result (Z * Z) :=
  if b =? 0 then Raise ZeroDivisionError else Ok (a / b, a mod b).

(** [s[i:j]] on a string: negative bounds count from the end, bounds are
    clipped to the string. *)
Definition py_slice (i j : Z) (s : string) : string :=
  let n := Z.of_nat (String.length s) in
  let clip k := if k <? 0 then Z.max (k + n) 0 else Z.min k n in
  let lo := clip i in
  let hi := clip j in
  String.substring (Z.to_nat lo) (Z.to_nat (hi - lo)) s.

(** [s.replace(old, new)]: the occurrences of [old] are found from left to
    right and do not overlap.  [replace_from] walks [s]; [skip] counts the
    characters of an occurrence already replaced. *)
Fixpoint replace_from (old new : string) (skip : nat) (s : string) : string :=
  match s with
  | EmptyString => EmptyString
  | String c s' =>
      match skip with
      | S k => replace_from old new k s'
      | O =>
          if String.prefix old s
          then new +:+ replace_from old new (String.length old - 1) s'
          else String c (replace_from old new 0 s')
      end
  end.

(** With an empty [old], Python puts [new] before every character and at
    the end. *)
Fixpoint interleave (new s : string) : string :=
  match s with
  | EmptyString => new
  | String c s' => new +:+ String c (interleave new s')
  end.

Definition str_replace (s old new : string) : string :=
  match old with
  | EmptyString => interleave new s
  | _ => replace_from old new 0 s
  end.

(** [sorted(keys)] on strings: the order of [str], character codes compared
    from the left. *)
Definition str_le (a b : string) : Prop := String.leb a b.

Definition sorted (keys : list string) : list string := merge_sort str_le keys.

(** [collections.OrderedDict]: items in insertion order; setting a key that
    is present keeps its position. *)
Definition OrderedDict (K V : Type) : Type := list (K * V).

Fixpoint od_setitem {V} (od : OrderedDict Z V) (k : Z) (v : V) : OrderedDict Z V :=
  match od with
  | [] => [(k, v)]
  | (k', v') :: od' =>
      if k' =? k then (k', v) :: od' else (k', v') :: od_setitem od' k v
  end.

(** [collections.OrderedDict(pairs)] *)
Definition OrderedDict_of {V} (pairs : list (Z * V)) : OrderedDict Z V :=
  foldl (λ od kv, od_setitem od kv.1 kv.2) [] pairs.

(** The names used for the host's calls inside the module. *)
Section module.
Context {St : Type} `{Host St}.

Definition files_with_extension_lister (folder ext : string)
    (full_name_option sub_folders_option : bool) : M St (list string) :=
  call (CallLister folder ext full_name_option sub_folders_option)
       (λ h, host_files_with_extension_lister h folder ext full_name_option
               sub_folders_option).

Definition odbs_close_all_odbs : M St unit :=
  call CallCloseAll host_odbs_close_all_odbs.

Definition isUpgradeRequiredForOdb (path : string) : M St bool :=
  call (CallIsUpgradeRequired path) (λ h, odbAccess_isUpgradeRequiredForOdb h path).

Definition openOdb (path : string) (readOnly : bool) : M St Odb :=
  call (CallOpenOdb path readOnly) (λ h, session_openOdb h path readOnly).

Definition upgradeOdb (existingOdbPath upgradedOdbPath : string) : M St unit :=
  call (CallUpgradeOdb existingOdbPath upgradedOdbPath)
       (λ h, session_upgradeOdb h existingOdbPath upgradedOdbPath).

Definition rename (src dst : string) : M St unit :=
  call (CallRename src dst) (λ h, os_rename h src dst).

Definition changeKey (model : Model) (fromName toName : string) : M St unit :=
  call (CallChangeKey model fromName toName)
       (λ h, sets_changeKey h model fromName toName).

(** Attribute access on an "Odb or path" value: a [str] has neither
    attribute. *)
Definition getattr_diagnosticData_jobTime (odb : odb_ish) : M St JobTime :=
  match odb with
  | Handle o => ret (diagnosticData_jobTime o)
  | Path _ => raise (AttributeError "diagnosticData")
  end.

Definition getattr_name (odb : odb_ish) : M St string :=
  match odb with
  | Handle o => ret (name o)
  | Path _ => raise (AttributeError "name")
  end.

(** ** odbs_odbobject_normalizer *)

Definition odbs_odbobject_normalizer (odb_ish : odb_ish) : M St Odb :=
  match odb_ish with
  | Path s =>
      try_except
        (read_result (λ h, session_odbs_getitem h s))
        (λ e, match e with
              | KeyError _ => openOdb s false
              | _ => raise e
              end)
  | Handle o => ret o
  end.

(** ** mesh_extract_set_nodes *)

(** The generator [(node.label, node.coordinates) for node in ...] *)
Definition node_items (nodes_num : list OdbMeshNode) : list (Z * Coordinates) :=
  map (λ node, (label node, coordinates node)) nodes_num.

(** The inner dict comprehension:
    [{instance_name: OrderedDict(...) for num, instance_name in enumerate(...)}] *)
Fixpoint instances_dict (node_set : OdbSet) (items : list (Z * string))
    (acc : gmap string (OrderedDict Z Coordinates))
    : Result (gmap string (OrderedDict Z Coordinates)) :=
  match items with
  | [] => Ok acc
  | (num, instance_name) :: items' =>
      match py_getitem (nodes node_set) num with
      | Ok nodes_num =>
          instances_dict node_set items'
            (<[instance_name :=
                 OrderedDict_of (node_items nodes_num)]>
               acc)
      | Raise e => Raise e
      end
  end.

Definition mesh_extract_set_nodes (odb : odb_ish) (set_name : string)
    : M St (gmap string (gmap string (OrderedDict Z Coordinates))) :=
  let! odb := odbs_odbobject_normalizer odb in
  let! node_set := lift (repo_getitem (rootAssembly_nodeSets odb) set_name) in
  let instances_names_list := instanceNames node_set in
  let! inner := lift (instances_dict node_set (enumerate instances_names_list) ∅) in
  ret {[ set_name := inner ]}.

(** ** models_modify_set_name *)

(** The loop of [models_modify_set_name], over the items of [mdb.models]. *)
Definition models_loop (set_name new_set_name : string)
    (items : list (string * Model)) : M St unit :=
  for_each items (λ '(model_key, model), changeKey model set_name new_set_name).

Definition models_modify_set_name (set_name new_set_name : string) : M St unit :=
  let! items := read mdb_models_items in
  models_loop set_name new_set_name items.

(** ** odbs_get_calc_time *)

Definition odbs_get_calc_time (odb : odb_ish) (show : bool) : M St pyval :=
  odbs_odbobject_normalizer odb ;;
  let! calc_time := getattr_diagnosticData_jobTime odb in
  let! output := lift (ast_literal_eval (py_slice 1 (-1) (JobTime_str calc_time))) in
  (if show then
     let! odb_dot_name := getattr_name odb in
     let odb_name := (os_path_splitext (os_path_basename odb_dot_name)).1 in
     print [PrStr odb_name; PrStr ": "; PrStr (JobTime_str calc_time)]
   else ret tt) ;;
  ret output.

(** ** odbs_get_calc_time_folder *)

(** The loop of [odbs_get_calc_time_folder]:
    [for job_key in odb_list: ...; output[job_key] = ...] *)
Definition calc_time_loop (odb_list : list string) (show : bool)
    (output : gmap string pyval) : M St (gmap string pyval) :=
  for_fold odb_list output (λ output job_key,
    let! odb := odbs_odbobject_normalizer (Path job_key) in
    let! t := odbs_get_calc_time (Handle odb) show in
    ret (<[job_key := t]> output)).

Definition odbs_get_calc_time_folder (odbs_folder : string)
    (show recursive close_odbs : bool) : M St (gmap string pyval) :=
  let output := ∅ in
  let! odb_list := files_with_extension_lister odbs_folder ".odb" true recursive in
  print [PrInt (len odb_list); PrStr "Odb objects found"] ;;
  let! output := calc_time_loop odb_list show output in
  (if close_odbs then odbs_close_all_odbs else ret tt) ;;
  ret output.

(** ** odbs_retrieve_odb_name, odbs_retrieve_set_name *)

Definition odbs_retrieve_odb_name (number : Z) (show_all : bool) : M St string :=
  let! keys := read session_odbs_keys in
  let keys := sorted keys in
  let! selected_key := lift (py_getitem keys number) in
  (if show_all then print [PrStr "Currently opened Odbs"; PrStrs keys] else ret tt) ;;
  ret selected_key.

Definition odbs_retrieve_set_name (odb : odb_ish) (number : Z) (show_all : bool)
    : M St string :=
  let! odb := odbs_odbobject_normalizer odb in
  let keys := repo_keys (rootAssembly_nodeSets odb) in
  let keys := sorted keys in
  let! selected_key := lift (py_getitem keys number) in
  (if show_all then print [PrStr "Available node sets"; PrStrs keys] else ret tt) ;;
  ret selected_key.

(** ** odbs_upgrade_odbs_folder *)

(** [old_name = job_key.replace('.odb', '-old.odb')] *)
Definition old_name_of (job_key : string) : string :=
  str_replace job_key ".odb" "-old.odb".

(** The body of the loop of [odbs_upgrade_odbs_folder]. *)
Definition upgrade_body (temp_name : string) (print_every n_upgradable : Z)
    (item : Z * string) : M St unit :=
  let '(job_number, job_key) := item in
  let! qr := lift (divmod job_number print_every) in
  (if qr.2 =? 0
   then print [PrStr "Processing"; PrStr job_key; PrInt (job_number + 1);
               PrStr "of"; PrInt n_upgradable]
   else ret tt) ;;
  let new_name := job_key in
  let old_name := old_name_of job_key in
  upgradeOdb job_key temp_name ;;
  rename job_key old_name ;;
  rename temp_name new_name.

Definition upgrade_loop (temp_name : string) (print_every : Z)
    (upgradable_odb_list : list string) : M St unit :=
  for_each (enumerate upgradable_odb_list)
           (upgrade_body temp_name print_every (len upgradable_odb_list)).

Definition odbs_upgrade_odbs_folder (odbs_folder : string) (recursive : bool)
    (print_every : Z) : M St unit :=
  let! odb_list := files_with_extension_lister odbs_folder ".odb" true recursive in
  let! upgradable_odb_list := comprehension_if odb_list isUpgradeRequiredForOdb in
  print [PrInt (len odb_list); PrStr "Odb objects found";
         PrInt (len upgradable_odb_list); PrStr "require upgrade"] ;;
  let temp_name := os_path_join odbs_folder "temp_odb_name.odb" in
  upgrade_loop temp_name print_every upgradable_odb_list ;;
  print [PrStr "DONE"].

End module.


(** * Vocabulary of the properties *)

(** Classes of calls in a log. *)
Definition is_file_call (c : Call) : bool :=
  match c with
  | CallUpgradeOdb _ _ | CallRename _ _ => true
  | _ => false
  end.

Definition is_close_call (c : Call) : bool :=
  match c with CallCloseAll => true | _ => false end.

Definition is_open_or_print (c : Call) : bool :=
  match c with CallOpenOdb _ _ | CallPrint _ => true | _ => false end.

Definition is_open_call (c : Call) : bool :=
  match c with CallOpenOdb _ _ => true | _ => false end.

(** A print, or the read-write opening of one of the given paths. *)
Definition is_print_or_open_of (paths : list string) (c : Call) : Prop :=
  match c with
  | CallPrint _ => True
  | CallOpenOdb path readOnly => path ∈ paths ∧ readOnly = false
  | _ => False
  end.

(** The calls of a log that change files on disk, in order. *)
Definition file_calls (l : list Call) : list Call := List.filter is_file_call l.

(** The close calls of a log. *)
Definition close_calls (l : list Call) : list Call := List.filter is_close_call l.

(** The number of places of [s] at which [old] starts. *)
Fixpoint count_occurrences (old s : string) : nat :=
  match s with
  | EmptyString => 0
  | String c s' =>
      ((if String.prefix old s then 1 else 0) + count_occurrences old s')%nat
  end.

(** One [changeKey] call per model, in the order of the items. *)
Definition changeKey_calls (fromName toName : string)
    (items : list (string * Model)) : list Call :=
  map (λ item, CallChangeKey item.2 fromName toName) items.

(** The three steps taken for one file that requires an upgrade. *)
Definition upgrade_steps (temp_name job_key : string) : list Call :=
  [CallUpgradeOdb job_key temp_name;
   CallRename job_key (old_name_of job_key);
   CallRename temp_name job_key].

(** The calls of one pass of the upgrade loop: the progress line when the
    file's number is a multiple of [print_every], then the three steps. *)
Definition upgrade_pass (temp_name : string) (print_every n_upgradable : Z)
    (item : Z * string) : list Call :=
  (if (item.1 mod print_every) =? 0
   then [CallPrint [PrStr "Processing"; PrStr item.2; PrInt (item.1 + 1);
                    PrStr "of"; PrInt n_upgradable]]
   else [])
  ++ upgrade_steps temp_name item.2.

(** The calls of [odbs_upgrade_odbs_folder] up to its loop: the listing, one
    query per listed file, the summary line. *)
Definition upgrade_prologue (odbs_folder : string) (recursive : bool)
    (odb_list upgradable_odb_list : list string) : list Call :=
  [CallLister odbs_folder ".odb" true recursive]
  ++ map CallIsUpgradeRequired odb_list
  ++ [CallPrint [PrInt (len odb_list); PrStr "Odb objects found";
                 PrInt (len upgradable_odb_list); PrStr "require upgrade"]].

(** The progress line of one pass of the upgrade loop, when it is due. *)
Definition upgrade_progress (print_every n_upgradable : Z) (item : Z * string)
    : list Call :=
  if (item.1 mod print_every) =? 0
  then [CallPrint [PrStr "Processing"; PrStr item.2; PrInt (item.1 + 1);
                   PrStr "of"; PrInt n_upgradable]]
  else [].

(** The files of [l] whose verdict is [true], in the order of [l]. *)
Fixpoint kept (l : list string) (verdicts : list bool) : list string :=
  match l, verdicts with
  | x :: l', b :: verdicts' => if b then x :: kept l' verdicts' else kept l' verdicts'
  | _, _ => []
  end.

(** What the extractor makes of a handle's timing record. *)
Definition timing_of `{Host St} (o : Odb) : Result pyval :=
  ast_literal_eval (py_slice 1 (-1) (JobTime_str (diagnosticData_jobTime o))).

(** The calls of one pass of the timing loop for a path that resolved to the
    handle [o]: the open call when the file had to be opened, the line
    printed under [show]. *)
Definition timing_pass `{Host St} (show : bool) (path : string)
    (entry : Odb * bool * pyval) : list Call :=
  (if entry.1.2 then [CallOpenOdb path false] else [])
  ++ (if show
      then [CallPrint [PrStr (os_path_splitext (os_path_basename (name entry.1.1))).1;
                       PrStr ": ";
                       PrStr (JobTime_str (diagnosticData_jobTime entry.1.1))]]
      else []).

Definition timing_log `{Host St} (show : bool) (paths : list string)
    (entries : list (Odb * bool * pyval)) : list Call :=
  flat_map (λ pe, timing_pass show pe.1 pe.2) (zip paths entries).

(** The dict after [output[path] = t] for every path and its timing dict. *)
Definition timing_dict (output : gmap string pyval) (paths : list string)
    (entries : list (Odb * bool * pyval)) : gmap string pyval :=
  foldl (λ output pe, <[pe.1 := pe.2.2]> output) output (zip paths entries).

(** The calls of [odbs_get_calc_time_folder] up to its loop. *)
Definition timing_prologue (odbs_folder : string) (recursive : bool)
    (odb_list : list string) : list Call :=
  [CallLister odbs_folder ".odb" true recursive;
   CallPrint [PrInt (len odb_list); PrStr "Odb objects found"]].

(** Runs of host calls that all return.  Each relation threads the host
    state through the calls in the order the module issues them. *)
Section runs.
Context {St : Type} `{Host St}.

(** [changeKey] returns for every model of the list in turn. *)
Inductive changeKey_returns (fromName toName : string)
    : St → list (string * Model) → St → Prop :=
  | changeKey_returns_nil h :
      changeKey_returns fromName toName h [] h
  | changeKey_returns_cons h h1 h2 key model items :
      sets_changeKey h model fromName toName = (Ok tt, h1) →
      changeKey_returns fromName toName h1 items h2 →
      changeKey_returns fromName toName h ((key, model) :: items) h2.

(** The host answers [isUpgradeRequiredForOdb] for every path of the list
    in turn, with the given verdicts. *)
Inductive upgrade_answers : St → list string → list bool → St → Prop :=
  | upgrade_answers_nil h :
      upgrade_answers h [] [] h
  | upgrade_answers_cons h h1 h2 path b paths verdicts :
      odbAccess_isUpgradeRequiredForOdb h path = (Ok b, h1) →
      upgrade_answers h1 paths verdicts h2 →
      upgrade_answers h (path :: paths) (b :: verdicts) h2.

(** The upgrade and the two renames return for every path of the list in
    turn. *)
Inductive upgrades_return (temp_name : string) : St → list string → St → Prop :=
  | upgrades_return_nil h :
      upgrades_return temp_name h [] h
  | upgrades_return_cons h h1 h2 h3 h4 path paths :
      session_upgradeOdb h path temp_name = (Ok tt, h1) →
      os_rename h1 path (old_name_of path) = (Ok tt, h2) →
      os_rename h2 temp_name path = (Ok tt, h3) →
      upgrades_return temp_name h3 paths h4 →
      upgrades_return temp_name h (path :: paths) h4.

(** The host resolves a path to an open handle: the registry has it, or the
    lookup raises [KeyError] and the file opens read-write.  The second
    component says whether the file was opened. *)
Inductive resolves : St → string → Odb → bool → St → Prop :=
  | resolves_registered h path o :
      session_odbs_getitem h path = Ok o →
      resolves h path o false h
  | resolves_opened h h1 path key o :
      session_odbs_getitem h path = Raise (KeyError key) →
      session_openOdb h path false = (Ok o, h1) →
      resolves h path o true h1.

(** Every path of the list resolves in turn to a handle whose timing record
    evaluates. *)
Inductive timings_return : St → list string → list (Odb * bool * pyval) → St → Prop :=
  | timings_return_nil h :
      timings_return h [] [] h
  | timings_return_cons h h1 h2 path o opened t paths rest :
      resolves h path o opened h1 →
      timing_of o = Ok t →
      timings_return h1 paths rest h2 →
      timings_return h (path :: paths) ((o, opened, t) :: rest) h2.

(** The timing step of one path raises [e]: the registry lookup raises an
    exception other than [KeyError]; or the lookup raises [KeyError] and the
    file does not open; or the path resolves and the timing record of its
    handle does not evaluate.  The list holds the calls of the step. *)
Inductive timing_step_raises : St → string → exn → list Call → St → Prop :=
  | timing_lookup_raises h path e :
      session_odbs_getitem h path = Raise e →
      (∀ key, e ≠ KeyError key) →
      timing_step_raises h path e [] h
  | timing_open_raises h h1 path key e :
      session_odbs_getitem h path = Raise (KeyError key) →
      session_openOdb h path false = (Raise e, h1) →
      timing_step_raises h path e [CallOpenOdb path false] h1
  | timing_eval_raises h h1 path o opened e :
      resolves h path o opened h1 →
      timing_of o = Raise e →
      timing_step_raises h path e
        (if opened then [CallOpenOdb path false] else []) h1.

(** The upgrade step of one path raises [e]: in the upgrade, or after it in
    the first rename, or after both in the second rename.  The list holds
    the file-changing calls of the step. *)
Inductive upgrade_step_raises (temp_name : string)
    : St → string → exn → list Call → St → Prop :=
  | upgrade_raises h h1 path e :
      session_upgradeOdb h path temp_name = (Raise e, h1) →
      upgrade_step_raises temp_name h path e
        [CallUpgradeOdb path temp_name] h1
  | first_rename_raises h h1 h2 path e :
      session_upgradeOdb h path temp_name = (Ok tt, h1) →
      os_rename h1 path (old_name_of path) = (Raise e, h2) →
      upgrade_step_raises temp_name h path e
        [CallUpgradeOdb path temp_name; CallRename path (old_name_of path)] h2
  | second_rename_raises h h1 h2 h3 path e :
      session_upgradeOdb h path temp_name = (Ok tt, h1) →
      os_rename h1 path (old_name_of path) = (Ok tt, h2) →
      os_rename h2 temp_name path = (Raise e, h3) →
      upgrade_step_raises temp_name h path e
        [CallUpgradeOdb path temp_name; CallRename path (old_name_of path);
         CallRename temp_name path] h3.

End runs.

(** * A small host to run the module on

    [Demo.state] is a host with a registry of open result databases, a flat
    disk of result files and a model database.  It is used to evaluate the
    functions on concrete inputs. *)

Module Demo.

(** A file on disk: a damaged file cannot be upgraded. *)
Record disk_file := { needs_upgrade : bool; damaged : bool; content : Odb }.

Record state := {
  open_odbs : Repository Odb;
  disk : Repository disk_file;
  model_sets : list (Model * list string)
}.

Definition with_open_odbs (h : state) (odbs : Repository Odb) : state :=
  {| open_odbs := odbs; disk := disk h; model_sets := model_sets h |}.

Definition with_disk (h : state) (d : Repository disk_file) : state :=
  {| open_odbs := open_odbs h; disk := d; model_sets := model_sets h |}.

Definition with_model_sets (h : state) (ms : list (Model * list string)) : state :=
  {| open_odbs := open_odbs h; disk := disk h; model_sets := ms |}.

(** ** Strings and paths (POSIX conventions) *)

Definition ends_with (ext p : string) : bool :=
  String.prefix (String.rev ext) (String.rev p).

Fixpoint contains (c : Ascii.ascii) (s : string) : bool :=
  match s with
  | EmptyString => false
  | String d s' => Ascii.eqb c d || contains c s'
  end.

Fixpoint drop_string (n : nat) (s : string) : string :=
  match n, s with
  | S n', String _ s' => drop_string n' s'
  | _, _ => s
  end.

Definition path_join (a b : string) : string :=
  if String.prefix "/" b then b
  else if String.eqb a "" || ends_with "/" a then a +:+ b
  else a +:+ "/" +:+ b.

Fixpoint basename_from (current s : string) : string :=
  match s with
  | EmptyString => String.rev current
  | String c s' =>
      if Ascii.eqb c "/"%char then basename_from "" s' else basename_from (String c current) s'
  end.

Definition path_basename (p : string) : string := basename_from "" p.

(** Whether the file name that ends [reversed] (a path read from its end)
    has a character other than a dot: leading dots start no extension. *)
Fixpoint has_name_char (reversed : string) : bool :=
  match reversed with
  | EmptyString => false
  | String c reversed' =>
      if Ascii.eqb c "/"%char then false
      else if Ascii.eqb c "."%char then has_name_char reversed'
      else true
  end.

(** [reversed] is the path read from its end; [ext] the extension so far. *)
Fixpoint splitext_from (ext reversed : string) : option (string * string) :=
  match reversed with
  | EmptyString => None
  | String c reversed' =>
      if Ascii.eqb c "."%char
      then if has_name_char reversed'
           then Some (String.rev reversed', String "."%char ext)
           else None
      else if Ascii.eqb c "/"%char then None
      else splitext_from (String c ext) reversed'
  end.

Definition path_splitext (p : string) : string * string :=
  match splitext_from "" (String.rev p) with
  | Some split => split
  | None => (p, "")
  end.

(** ** Literal evaluation of flat dict displays

    A stand-in for [ast.literal_eval] on the displays the host prints for a
    timing record: a dict display with quoted keys and decimal numbers
    (sign, fraction and exponent allowed), the empty display included; a
    repeated key keeps its first position and its last value.  A text that
    is no such display, the empty string included, is answered with
    [SyntaxError]; the other literals of Python are outside this stand-in. *)

Definition is_digit (c : Ascii.ascii) : bool :=
  let n := Ascii.N_of_ascii c in (48 <=? n)%N && (n <=? 57)%N.

Fixpoint parse_digits (s : string) (acc : Z) (count : nat) : Z * nat * string :=
  match s with
  | String c s' =>
      if is_digit c
      then parse_digits s' (acc * 10 + Z.of_N (Ascii.N_of_ascii c - 48)) (S count)
      else (acc, count, s)
  | EmptyString => (acc, count, s)
  end.

(** The fraction after a dot, if there is a dot: numerator, number of
    digits, rest. *)
Definition parse_fraction (s : string) : option (Z * nat) * string :=
  match s with
  | String c s1 =>
      if Ascii.eqb c "."%char
      then let '(frac_part, frac_count, s2) := parse_digits s1 0 0 in
           (Some (frac_part, frac_count), s2)
      else (None, s)
  | EmptyString => (None, s)
  end.

(** The exponent after [e] or [E], if there is one; [None] when the text
    after the letter is not a number. *)
Definition parse_exponent (s : string) : option (option Z * string) :=
  match s with
  | String c s1 =>
      if Ascii.eqb c "e"%char || Ascii.eqb c "E"%char
      then let '(negative, s2) :=
             match s1 with
             | String d s1' =>
                 if Ascii.eqb d "-"%char then (true, s1')
                 else if Ascii.eqb d "+"%char then (false, s1')
                 else (false, s1)
             | EmptyString => (false, s1)
             end in
           let '(digits, count, s3) := parse_digits s2 0 0 in
           match count with
           | O => None
           | S _ => Some (Some (if negative then - digits else digits), s3)
           end
      else Some (None, s)
  | EmptyString => Some (None, s)
  end.

(** [q * 10 ^ ex] *)
Definition scale (q : Q) (ex : Z) : Q :=
  if ex <? 0
  then Qred (Qmake (Qnum q) (Qden q * Z.to_pos (10 ^ (- ex))))
  else Qred (Qmake (Qnum q * 10 ^ ex) (Qden q)).

Definition parse_unsigned (s : string) : option (pyval * string) :=
  let '(int_part, int_count, s1) := parse_digits s 0 0 in
  let '(fraction, s2) := parse_fraction s1 in
  let digits := (int_count + match fraction with Some (_, n) => n | None => 0 end)%nat in
  match digits with
  | O => None
  | S _ =>
      match parse_exponent s2 with
      | None => None
      | Some (exponent, s3) =>
          match fraction, exponent with
          | None, None => Some (PyInt int_part, s3)
          | _, _ =>
              let '(frac_part, frac_count) :=
                match fraction with Some f => f | None => (0, O) end in
              let den := 10 ^ Z.of_nat frac_count in
              let mantissa := Qmake (int_part * den + frac_part) (Z.to_pos den) in
              Some (PyFloat (scale mantissa
                               (match exponent with Some ex => ex | None => 0 end)),
                    s3)
          end
      end
  end.

Definition negate (v : pyval) : pyval :=
  match v with
  | PyInt n => PyInt (- n)
  | PyFloat q => PyFloat (Qopp q)
  | _ => v
  end.

Definition parse_number (s : string) : option (pyval * string) :=
  match s with
  | String c s' =>
      if Ascii.eqb c "-"%char
      then match parse_unsigned s' with
           | Some (v, rest) => Some (negate v, rest)
           | None => None
           end
      else parse_unsigned s
  | EmptyString => None
  end.

Fixpoint skip_spaces (s : string) : string :=
  match s with
  | String c s' => if Ascii.eqb c " "%char then skip_spaces s' else s
  | EmptyString => s
  end.

Fixpoint take_until_quote (s : string) : option (string * string) :=
  match s with
  | EmptyString => None
  | String c s' =>
      if Ascii.eqb c "'"%char then Some (EmptyString, s')
      else match take_until_quote s' with
           | Some (key, rest) => Some (String c key, rest)
           | None => None
           end
  end.

Definition expect (c : Ascii.ascii) (s : string) : option string :=
  match skip_spaces s with
  | String d s' => if Ascii.eqb c d then Some s' else None
  | EmptyString => None
  end.

(** The [key: number] items up to the closing brace, in the order read. *)
Fixpoint parse_items (fuel : nat) (s : string) : option (list (string * pyval) * string) :=
  match fuel with
  | O => None
  | S fuel' =>
      match expect "'"%char s with
      | None => None
      | Some s1 =>
          match take_until_quote s1 with
          | None => None
          | Some (key, s2) =>
              match expect ":"%char s2 with
              | None => None
              | Some s3 =>
                  match parse_number (skip_spaces s3) with
                  | None => None
                  | Some (v, s4) =>
                      match expect ","%char s4 with
                      | Some s5 =>
                          match parse_items fuel' s5 with
                          | Some (items, s6) => Some ((key, v) :: items, s6)
                          | None => None
                          end
                      | None =>
                          match expect "}"%char s4 with
                          | Some s5 => Some ([(key, v)], s5)
                          | None => None
                          end
                      end
                  end
              end
          end
      end
  end.

(** [d[key] = v] on the items of a dict with string keys. *)
Fixpoint dict_setitem (items : list (pyval * pyval)) (key : string) (v : pyval)
    : list (pyval * pyval) :=
  match items with
  | [] => [(PyStr key, v)]
  | (PyStr k, v') :: items' =>
      if String.eqb k key then (PyStr k, v) :: items'
      else (PyStr k, v') :: dict_setitem items' key v
  | item :: items' => item :: dict_setitem items' key v
  end.

Definition dict_of_items (items : list (string * pyval)) : pyval :=
  PyDict (foldl (λ d kv, dict_setitem d kv.1 kv.2) [] items).

Definition literal_eval (s : string) : Result pyval :=
  match expect "{"%char s with
  | None => Raise SyntaxError
  | Some s1 =>
      match expect "}"%char s1 with
      | Some rest =>
          match skip_spaces rest with
          | EmptyString => Ok (PyDict [])
          | _ => Raise SyntaxError
          end
      | None =>
          match parse_items (String.length s) s1 with
          | Some (items, rest) =>
              match skip_spaces rest with
              | EmptyString => Ok (dict_of_items items)
              | _ => Raise SyntaxError
              end
          | None => Raise SyntaxError
          end
      end
  end.

(** ** The host calls *)

Fixpoint repo_remove {V} (repo : Repository V) (key : string) : Repository V :=
  match repo with
  | [] => []
  | (k, v) :: repo' =>
      if String.eqb k key then repo_remove repo' key else (k, v) :: repo_remove repo' key
  end.

Definition repo_put {V} (repo : Repository V) (key : string) (v : V) : Repository V :=
  repo_remove repo key ++ [(key, v)].

Definition openOdb (h : state) (path : string) (readOnly : bool) : Result Odb * state :=
  match repo_getitem (disk h) path with
  | Ok f => (Ok (content f), with_open_odbs h (repo_put (open_odbs h) path (content f)))
  | Raise _ => (Raise (OdbError "cannot open the database"), h)
  end.

Definition upgradeOdb (h : state) (src dst : string) : Result unit * state :=
  match repo_getitem (disk h) src with
  | Ok f =>
      if damaged f then (Raise (OdbError "cannot upgrade the database"), h)
      else (Ok tt,
            with_disk h
              (repo_put (disk h) dst
                 {| needs_upgrade := false; damaged := false; content := content f |}))
  | Raise _ => (Raise (OdbError "cannot upgrade the database"), h)
  end.

Definition isUpgradeRequired (h : state) (path : string) : Result bool * state :=
  match repo_getitem (disk h) path with
  | Ok f => (Ok (needs_upgrade f), h)
  | Raise _ => (Raise (OdbError "cannot read the database"), h)
  end.

(** The directory of a path: the text before its last slash. *)
Fixpoint after_slash (reversed : string) : string :=
  match reversed with
  | EmptyString => EmptyString
  | String c reversed' =>
      if Ascii.eqb c "/"%char then reversed' else after_slash reversed'
  end.

Definition path_dirname (p : string) : string :=
  String.rev (after_slash (String.rev p)).

(** On the flat disk a directory exists when a file lies under it. *)
Definition dir_exists (h : state) (dir : string) : bool :=
  String.eqb dir "" || existsb (String.prefix (dir +:+ "/")) (repo_keys (disk h)).

(** [os.rename]: the source must exist, and so must the directory of the
    destination. *)
Definition rename (h : state) (src dst : string) : Result unit * state :=
  match repo_getitem (disk h) src with
  | Ok f =>
      if dir_exists h (path_dirname dst)
      then (Ok tt, with_disk h (repo_put (repo_remove (disk h) src) dst f))
      else (Raise (OSError "No such file or directory"), h)
  | Raise _ => (Raise (OSError "No such file or directory"), h)
  end.

Definition close_all (h : state) : Result unit * state :=
  (Ok tt, with_open_odbs h []).

(** The files under [folder] with the extension; sub-folders on request. *)
Definition lister (h : state) (folder ext : string) (full_name sub_folders : bool)
    : Result (list string) * state :=
  let under p :=
    String.prefix (folder +:+ "/") p
    && ends_with ext p
    && (sub_folders
        || negb (contains "/"%char (drop_string (String.length folder + 1) p))) in
  (Ok (List.filter under (repo_keys (disk h))), h).

Definition models_items (h : state) : list (string * Model) :=
  map (λ ms, (model_name ms.1, ms.1)) (model_sets h).

Definition mem (x : string) (l : list string) : bool := existsb (String.eqb x) l.

Fixpoint rename_set (sets : list string) (fromName toName : string) : list string :=
  match sets with
  | [] => []
  | s :: sets' =>
      (if String.eqb s fromName then toName else s) :: rename_set sets' fromName toName
  end.

Fixpoint change_sets (ms : list (Model * list string)) (model : Model)
    (fromName toName : string) : Result (list (Model * list string)) :=
  match ms with
  | [] => Raise (KeyError (model_name model))
  | (m, sets) :: ms' =>
      if String.eqb (model_name m) (model_name model)
      then if negb (mem fromName sets) then Raise (KeyError fromName)
           else if mem toName sets
                then Raise (AbaqusException "the name is already in use")
                else Ok ((m, rename_set sets fromName toName) :: ms')
      else match change_sets ms' model fromName toName with
           | Ok ms'' => Ok ((m, sets) :: ms'')
           | Raise e => Raise e
           end
  end.

(** A missing set raises [KeyError]; a new name that is taken is refused
    with an exception and the model is left as it is. *)
Definition changeKey (h : state) (model : Model) (fromName toName : string)
    : Result unit * state :=
  match change_sets (model_sets h) model fromName toName with
  | Ok ms => (Ok tt, with_model_sets h ms)
  | Raise e => (Raise e, h)
  end.

#[global] Instance host_calls : Host state := {|
  session_odbs_getitem h key := repo_getitem (open_odbs h) key;
  session_odbs_keys h := repo_keys (open_odbs h);
  session_openOdb := openOdb;
  session_upgradeOdb := upgradeOdb;
  odbAccess_isUpgradeRequiredForOdb := isUpgradeRequired;
  mdb_models_items := models_items;
  sets_changeKey := changeKey;
  host_odbs_close_all_odbs := close_all;
  host_files_with_extension_lister := lister;
  os_rename := rename;
  os_path_join := path_join;
  os_path_basename := path_basename;
  os_path_splitext := path_splitext;
  ast_literal_eval := literal_eval
|}.

(** ** Data *)

Definition job_time : JobTime :=
  {| JobTime_str := "({'systemTime': 7.3, 'userTime': 34.0, 'wallclockTime': 37.0})" |}.

Definition timing : pyval :=
  PyDict [(PyStr "systemTime", PyFloat (Qmake 73 10));
          (PyStr "userTime", PyFloat (Qmake 34 1));
          (PyStr "wallclockTime", PyFloat (Qmake 37 1))].

Definition node (n : Z) (x y z : Z) : OdbMeshNode :=
  {| label := n; coordinates := [Qmake x 1; Qmake y 1; Qmake z 1] |}.

Definition all_nodes : OdbSet :=
  {| instanceNames := ["PART-1-1"; "PART-2-1"];
     nodes := [[node 1 0 0 0; node 2 1 0 0]; [node 1 0 5 0]] |}.

Definition fixed : OdbSet :=
  {| instanceNames := ["PART-1-1"]; nodes := [[node 1 0 0 0]] |}.

Definition odb_named (path : string) : Odb :=
  {| name := path;
     diagnosticData_jobTime := job_time;
     rootAssembly_nodeSets := [("FIXED", fixed); ("ALL_NODES", all_nodes)] |}.

Definition beam : Odb := odb_named "/jobs/beam.odb".
Definition plate : Odb := odb_named "/jobs/plate.odb".
Definition truss : Odb := odb_named "/jobs/sub/truss.odb".
Definition wing : Odb := odb_named "/jobs/wing.odb".

(** A result database whose timing record is not a dict display. *)
Definition broken : Odb :=
  {| name := "/jobs/broken.odb";
     diagnosticData_jobTime := {| JobTime_str := "()" |};
     rootAssembly_nodeSets := [] |}.

Definition file (needs : bool) (o : Odb) : disk_file :=
  {| needs_upgrade := needs; damaged := false; content := o |}.

Definition model1 : Model := {| model_name := "Model-1" |}.
Definition model2 : Model := {| model_name := "Model-2" |}.
Definition model3 : Model := {| model_name := "Model-3" |}.

(** [plate] is open; [beam] and [truss] need an upgrade.  Renaming ["Set-1"]
    to ["Load"] is possible in [model1] and in [model3] and refused in
    [model2], where the name is taken. *)
Definition h0 : state :=
  {| open_odbs := [("/jobs/plate.odb", plate)];
     disk := [("/jobs/beam.odb", file true beam);
              ("/jobs/plate.odb", file false plate);
              ("/jobs/sub/truss.odb", file true truss)];
     model_sets := [(model1, ["Set-1"; "Set-2"]);
                    (model2, ["Set-1"; "Load"]);
                    (model3, ["Set-1"])] |}.

Definition w0 : World state := mkWorld h0 [].

(** The same host without [model2]. *)
Definition h_two_models : state :=
  with_model_sets h0 [(model1, ["Set-1"; "Set-2"]); (model3, ["Set-1"])].

(** Two result databases open, registered in either order. *)
Definition h_open (odbs : Repository Odb) : state := with_open_odbs h0 odbs.

(** A disk on which the second of three files has a broken timing record. *)
Definition h_broken : state :=
  {| open_odbs := [];
     disk := [("/jobs/beam.odb", file true beam);
              ("/jobs/broken.odb", file true broken);
              ("/jobs/wing.odb", file true wing)];
     model_sets := [] |}.

(** A disk on which the second of three files cannot be upgraded. *)
Definition h_damaged : state :=
  {| open_odbs := [];
     disk := [("/jobs/beam.odb", file true beam);
              ("/jobs/plate.odb",
               {| needs_upgrade := true; damaged := true; content := plate |});
              ("/jobs/wing.odb", file true wing)];
     model_sets := [] |}.

End Demo.

(** * The small host with failing calls

    [Faulty.calls] answers like [Demo.host_calls], except that the listing
    fails outside [/jobs] and the upgrade query fails on a damaged file. *)

Module Faulty.

Definition lister (h : Demo.state) (folder ext : string)
    (full_name sub_folders : bool) : Result (list string) * Demo.state :=
  if String.prefix "/jobs" folder
  then Demo.lister h folder ext full_name sub_folders
  else (Raise (OSError "No such file or directory"), h).

Definition isUpgradeRequired (h : Demo.state) (path : string)
    : Result bool * Demo.state :=
  match repo_getitem (Demo.disk h) path with
  | Ok f =>
      if Demo.damaged f then (Raise (OdbError "cannot read the database"), h)
      else (Ok (Demo.needs_upgrade f), h)
  | Raise _ => (Raise (OdbError "cannot read the database"), h)
  end.

Definition calls : Host Demo.state := {|
  session_odbs_getitem h key := repo_getitem (Demo.open_odbs h) key;
  session_odbs_keys h := repo_keys (Demo.open_odbs h);
  session_openOdb := Demo.openOdb;
  session_upgradeOdb := Demo.upgradeOdb;
  odbAccess_isUpgradeRequiredForOdb := isUpgradeRequired;
  mdb_models_items := Demo.models_items;
  sets_changeKey := Demo.changeKey;
  host_odbs_close_all_odbs := Demo.close_all;
  host_files_with_extension_lister := lister;
  os_rename := Demo.rename;
  os_path_join := Demo.path_join;
  os_path_basename := Demo.path_basename;
  os_path_splitext := Demo.path_splitext;
  ast_literal_eval := Demo.literal_eval
|}.

(** A disk whose only result file is current. *)
Definition h_current : Demo.state :=
  Demo.with_disk Demo.h0 [("/jobs/plate.odb", Demo.file false Demo.plate)].

End Faulty.
(** * Properties *)

Section properties.
Context {St : Type} `{Host St}.

(** ** The result-handle normalizer *)

(** C2. [odbs_odbobject_normalizer] by cases on its input, in a world [w]:
    - a path that is a key of [session.odbs]: the registered handle is
      returned and the world is unchanged (no call is issued);
    - a path for which the registry lookup raises [KeyError]: exactly one
      call is issued, [session.openOdb(path, readOnly=False)], and its
      outcome (the handle, or the exception it raises) is the outcome of
      the normalizer;
    - an [Odb]: it is returned, the world is unchanged;
    - a lookup that raises anything but [KeyError]: the exception
      propagates, nothing is opened. *)
Theorem normalizer_cases (w : World St) :
  (∀ s o, session_odbs_getitem (host w) s = Ok o →
     odbs_odbobject_normalizer (Path s) w = (Ok o, w))
  ∧ (∀ s k, session_odbs_getitem (host w) s = Raise (KeyError k) →
       odbs_odbobject_normalizer (Path s) w =
         ((session_openOdb (host w) s false).1,
          mkWorld (session_openOdb (host w) s false).2
                  (log w ++ [CallOpenOdb s false])))
  ∧ (∀ o, odbs_odbobject_normalizer (Handle o) w = (Ok o, w))
  ∧ (∀ s e, session_odbs_getitem (host w) s = Raise e →
       (∀ k, e ≠ KeyError k) →
       odbs_odbobject_normalizer (Path s) w = (Raise e, w)).
Proof.
  repeat split.
  - intros s o Hget.
    unfold odbs_odbobject_normalizer, try_except, read_result. by rewrite Hget.
  - intros s k Hget.
    unfold odbs_odbobject_normalizer, try_except, read_result. rewrite Hget.
    unfold openOdb, call. by destruct (session_openOdb (host w) s false).
  - intros s e Hget Hne.
    unfold odbs_odbobject_normalizer, try_except, read_result. rewrite Hget.
    destruct e; try done. by destruct (Hne key).
Qed.

(** ** The single timing extractor *)

Lemma substring_0_append (body rest : string) :
  String.substring 0 (String.length body) (body +:+ rest) = body.
Proof.
  induction body as [|c body IH]; simpl.
  - by destruct rest.
  - by rewrite IH.
Qed.

Lemma length_append (s t : string) :
  String.length (s +:+ t) = (String.length s + String.length t)%nat.
Proof. induction s as [|c s IH]; simpl; [done | by rewrite IH]. Qed.

(** [s[1:-1]] drops the first and the last character. *)
Lemma py_slice_strip (c1 c2 : Ascii.ascii) (body : string) :
  py_slice 1 (-1) (String c1 (body +:+ String c2 EmptyString)) = body.
Proof.
  unfold py_slice.
  set (s := String c1 (body +:+ String c2 EmptyString)).
  assert (Hn : String.length s = S (S (String.length body))).
  { unfold s. simpl. rewrite length_append. simpl. lia. }
  rewrite Hn.
  replace (1 <? 0) with false by done.
  replace (-1 <? 0) with true by done.
  rewrite Z.min_l by lia. rewrite Z.max_l by lia.
  replace (Z.to_nat 1) with 1%nat by done.
  replace (Z.to_nat (-1 + Z.of_nat (S (S (String.length body))) - 1))
    with (String.length body) by lia.
  unfold s. simpl. apply substring_0_append.
Qed.

(** On an [Odb] the normalizer is the identity, so the extractor is one
    literal evaluation and, when [show] is set, one [print]. *)
Lemma odbs_get_calc_time_Handle (o : Odb) (show : bool) (w : World St) :
  let text := JobTime_str (diagnosticData_jobTime o) in
  odbs_get_calc_time (Handle o) show w =
    match ast_literal_eval (py_slice 1 (-1) text) with
    | Ok output =>
        (Ok output,
         if show
         then mkWorld (host w)
                (log w ++ [CallPrint [PrStr (os_path_splitext (os_path_basename (name o))).1;
                                      PrStr ": "; PrStr text]])
         else w)
    | Raise e => (Raise e, w)
    end.
Proof.
  unfold odbs_get_calc_time, bind, lift, ret, print. simpl.
  destruct (ast_literal_eval _); [|done]. by destruct show.
Qed.

(** C5. For every open result handle [o], [odbs_get_calc_time] returns what
    [ast.literal_eval] makes of [str(o.diagnosticData.jobTime)] without its
    first and last character.  When that string is the host's timing struct,
    a parenthesised dict literal whose evaluation has the keys [systemTime],
    [userTime] and [wallclockTime] with float values, this dict is returned;
    the host state is untouched and the only call is the [print] under
    [show]. *)
Theorem odbs_get_calc_time_spec (o : Odb) (show : bool) (w : World St) :
  (odbs_get_calc_time (Handle o) show w).1 =
    ast_literal_eval (py_slice 1 (-1) (JobTime_str (diagnosticData_jobTime o)))
  ∧ (∀ (c1 c2 : Ascii.ascii) (body : string) (st ut wt : Q),
       JobTime_str (diagnosticData_jobTime o) = String c1 (body +:+ String c2 EmptyString) →
       ast_literal_eval body =
         Ok (PyDict [(PyStr "systemTime", PyFloat st);
                     (PyStr "userTime", PyFloat ut);
                     (PyStr "wallclockTime", PyFloat wt)]) →
       ∃ w',
         odbs_get_calc_time (Handle o) show w =
           (Ok (PyDict [(PyStr "systemTime", PyFloat st);
                        (PyStr "userTime", PyFloat ut);
                        (PyStr "wallclockTime", PyFloat wt)]), w')
         ∧ host w' = host w
         ∧ log w' =
           log w ++
           (if show
            then [CallPrint [PrStr (os_path_splitext (os_path_basename (name o))).1;
                             PrStr ": "; PrStr (JobTime_str (diagnosticData_jobTime o))]]
            else [])).
Proof.
  split.
  - rewrite odbs_get_calc_time_Handle. simpl.
    by destruct (ast_literal_eval _).
  - intros c1 c2 body st ut wt Htext Heval.
    rewrite odbs_get_calc_time_Handle. simpl.
    rewrite Htext, py_slice_strip, Heval.
    eexists; split; [done|]. destruct show; simpl; [done|].
    by rewrite app_nil_r.
Qed.

(** C9. [odbs_get_calc_time] drops the normalizer's result and keeps using
    its argument.  On a path string it therefore never returns: it raises
    what the normalizer raises or, when the normalizer did resolve the path
    to a handle, [AttributeError] from the attribute access on the string,
    in the world the normalizer left (the handle stays open).  Whenever the
    function returns, its argument was an [Odb]. *)
Theorem odbs_get_calc_time_on_path (show : bool) (w : World St) :
  (∀ s, ∃ e w',
     odbs_get_calc_time (Path s) show w = (Raise e, w')
     ∧ ∀ o w1, odbs_odbobject_normalizer (Path s) w = (Ok o, w1) →
         e = AttributeError "diagnosticData" ∧ w' = w1)
  ∧ (∀ odb output w',
       odbs_get_calc_time odb show w = (Ok output, w') → ∃ o, odb = Handle o).
Proof.
  assert (Hpath : ∀ s, ∃ e w',
     odbs_get_calc_time (Path s) show w = (Raise e, w')
     ∧ ∀ o w1, odbs_odbobject_normalizer (Path s) w = (Ok o, w1) →
         e = AttributeError "diagnosticData" ∧ w' = w1).
  { intros s. unfold odbs_get_calc_time, bind.
    destruct (odbs_odbobject_normalizer (Path s) w) as [[o|e] w1] eqn:Hnorm.
    - simpl. exists (AttributeError "diagnosticData"), w1.
      split; [done|]. intros o' w1' [= -> ->]. done.
    - exists e, w1. split; [done|]. intros o' w1' [=]. }
  split; [done|].
  intros [s|o] output w' Hrun; [|by eexists].
  destruct (Hpath s) as (e & w1 & Hraise & _). congruence.
Qed.

(** ** Sorting names *)

Lemma ascii_compare_lt_trans (a b c : Ascii.ascii) :
  Ascii.compare a b = Lt → Ascii.compare b c = Lt → Ascii.compare a c = Lt.
Proof.
  unfold Ascii.compare. rewrite !N.compare_lt_iff. apply N.lt_trans.
Qed.

Lemma string_leb_trans (a b c : string) :
  String.leb a b = true → String.leb b c = true → String.leb a c = true.
Proof.
  unfold String.leb. revert b c.
  induction a as [|x a IH]; intros [|y b] [|z c]; simpl; try done.
  destruct (Ascii.compare x y) eqn:Hxy; try done;
    destruct (Ascii.compare y z) eqn:Hyz; try done.
  - apply Ascii.compare_eq_iff in Hxy as ->.
    apply Ascii.compare_eq_iff in Hyz as ->.
    replace (Ascii.compare z z) with Eq; [apply IH|].
    symmetry. unfold Ascii.compare. apply N.compare_refl.
  - apply Ascii.compare_eq_iff in Hxy as ->. by rewrite Hyz.
  - apply Ascii.compare_eq_iff in Hyz as <-. by rewrite Hxy.
  - by rewrite (ascii_compare_lt_trans x y z).
Qed.

#[local] Instance str_le_trans : Transitive str_le.
Proof.
  intros a b c. unfold str_le. rewrite !Is_true_true. apply string_leb_trans.
Qed.

#[local] Instance str_le_total : Total str_le.
Proof.
  intros a b. unfold str_le. rewrite !Is_true_true. apply String.leb_total.
Qed.

#[local] Instance str_le_antisym : AntiSymm eq str_le.
Proof.
  intros a b. unfold str_le. rewrite !Is_true_true. apply String.leb_antisym.
Qed.

Lemma sorted_StronglySorted (keys : list string) :
  StronglySorted str_le (sorted keys).
Proof. apply (StronglySorted_merge_sort str_le). Qed.

Lemma sorted_Permutation (keys : list string) : sorted keys ≡ₚ keys.
Proof. apply merge_sort_Permutation. Qed.

(** Two listings of the same names sort to the same list. *)
Lemma sorted_order_irrelevant (keys1 keys2 : list string) :
  keys1 ≡ₚ keys2 → sorted keys1 = sorted keys2.
Proof.
  intros Hperm. apply (StronglySorted_unique str_le).
  - apply sorted_StronglySorted.
  - apply sorted_StronglySorted.
  - by rewrite !sorted_Permutation.
Qed.

Lemma py_getitem_in_range {A} (l : list A) (i : Z) :
  0 ≤ i < len l → ∃ x, l !! Z.to_nat i = Some x ∧ py_getitem l i = Ok x.
Proof.
  intros Hi. unfold py_getitem, len in *.
  destruct (l !! Z.to_nat i) as [x|] eqn:Hx.
  - exists x. split; [done|].
    replace (i <? 0) with false by lia.
    replace ((i <? 0) || (Z.of_nat (length l) <=? i)) with false; [by rewrite Hx|].
    symmetry. apply orb_false_intro; lia.
  - apply lookup_ge_None in Hx. lia.
Qed.

Lemma retrieve_odb_name_result (number : Z) (show_all : bool) (w : World St) :
  (odbs_retrieve_odb_name number show_all w).1 =
    py_getitem (sorted (session_odbs_keys (host w))) number.
Proof.
  unfold odbs_retrieve_odb_name, bind, read, lift, ret, print. simpl.
  destruct (py_getitem _ number); [|done]. by destruct show_all.
Qed.

Lemma retrieve_set_name_result (odb : odb_ish) (number : Z) (show_all : bool)
    (w w1 : World St) (o : Odb) :
  odbs_odbobject_normalizer odb w = (Ok o, w1) →
  (odbs_retrieve_set_name odb number show_all w).1 =
    py_getitem (sorted (repo_keys (rootAssembly_nodeSets o))) number.
Proof.
  intros Hnorm.
  unfold odbs_retrieve_set_name, bind, lift, ret, print. rewrite Hnorm. simpl.
  destruct (py_getitem _ number); [|done]. by destruct show_all.
Qed.

(** C8. [odbs_retrieve_odb_name] and [odbs_retrieve_set_name] return
    [sorted(names)[number]], where [names] are the keys of [session.odbs],
    respectively of the node sets of the result database the argument
    resolves to.  [sorted(names)] is a rearrangement of [names] in
    non-decreasing [str] order; a [number] within [0 .. len - 1] selects the
    element at that position; and two hosts that list the same names in
    different orders give the same result. *)
Theorem retrieve_name_by_index (number : Z) (show_all : bool) (w : World St) :
  (odbs_retrieve_odb_name number show_all w).1 =
    py_getitem (sorted (session_odbs_keys (host w))) number
  ∧ (∀ odb o w1, odbs_odbobject_normalizer odb w = (Ok o, w1) →
       (odbs_retrieve_set_name odb number show_all w).1 =
         py_getitem (sorted (repo_keys (rootAssembly_nodeSets o))) number)
  ∧ (∀ names, StronglySorted str_le (sorted names) ∧ sorted names ≡ₚ names)
  ∧ (∀ names, 0 ≤ number < len names →
       ∃ key, sorted names !! Z.to_nat number = Some key
              ∧ py_getitem (sorted names) number = Ok key)
  ∧ (∀ w2 : World St,
       session_odbs_keys (host w2) ≡ₚ session_odbs_keys (host w) →
       (odbs_retrieve_odb_name number show_all w2).1 =
         (odbs_retrieve_odb_name number show_all w).1)
  ∧ (∀ o o2 (w2 : World St),
       repo_keys (rootAssembly_nodeSets o2) ≡ₚ repo_keys (rootAssembly_nodeSets o) →
       (odbs_retrieve_set_name (Handle o2) number show_all w2).1 =
         (odbs_retrieve_set_name (Handle o) number show_all w).1).
Proof.
  split; [apply retrieve_odb_name_result|].
  split; [intros odb o w1; apply retrieve_set_name_result|].
  split; [intros names; split; [apply sorted_StronglySorted|apply sorted_Permutation]|].
  split.
  { intros names Hrange. apply py_getitem_in_range.
    unfold len in *. by rewrite (Permutation_length (sorted_Permutation names)). }
  split.
  - intros w2 Hperm. rewrite !retrieve_odb_name_result.
    by rewrite (sorted_order_irrelevant _ _ Hperm).
  - intros o o2 w2 Hperm.
    rewrite (retrieve_set_name_result (Handle o2) number show_all w2 w2 o2) by done.
    rewrite (retrieve_set_name_result (Handle o) number show_all w w o) by done.
    by rewrite (sorted_order_irrelevant _ _ Hperm).
Qed.

End properties.

(** ** The old-file name *)

Lemma prefix_refl (s : string) : String.prefix s s = true.
Proof.
  induction s as [|c s IH]; simpl; [done|].
  by destruct (Ascii.ascii_dec c c).
Qed.

Lemma append_empty_r (s : string) : s +:+ EmptyString = s.
Proof.
  induction s as [|c s IH]; [done|].
  change (String c (s +:+ EmptyString) = String c s). by rewrite IH.
Qed.

Lemma prefix_append (s t : string) : String.prefix s (s +:+ t) = true.
Proof.
  induction s as [|c s IH]; simpl; [by destruct t|].
  by destruct (Ascii.ascii_dec c c).
Qed.

(** Skipping as many characters as are left yields nothing. *)
Lemma replace_from_skip_all (old new : string) (k : nat) (s : string) :
  (String.length s ≤ k)%nat → replace_from old new k s = EmptyString.
Proof.
  revert k. induction s as [|c s IH]; intros k Hk; simpl in *; [done|].
  destruct k as [|k]; [lia|]. apply IH. lia.
Qed.

(** Skipping exactly a block of characters resumes after it. *)
Lemma replace_from_skip (old new block rest : string) :
  replace_from old new (String.length block) (block +:+ rest) =
  replace_from old new 0 rest.
Proof. induction block as [|c block IH]; simpl; [done | apply IH]. Qed.

(** An occurrence at the head is replaced, and the search resumes after it. *)
Lemma replace_from_head (old new rest : string) :
  old ≠ EmptyString →
  replace_from old new 0 (old +:+ rest) = new +:+ replace_from old new 0 rest.
Proof.
  destruct old as [|c old]; [done|]. intros _.
  change (String c old +:+ rest) with (String c (old +:+ rest)).
  cbn [replace_from].
  change (String c (old +:+ rest)) with (String c old +:+ rest).
  rewrite prefix_append.
  replace (String.length (String c old) - 1)%nat with (String.length old)
    by (simpl; lia).
  by rewrite replace_from_skip.
Qed.

Lemma count_occurrences_suffix (old stem : string) :
  old ≠ EmptyString → (1 ≤ count_occurrences old (stem +:+ old))%nat.
Proof.
  intros Hold. induction stem as [|c stem IH].
  - destruct old as [|c old]; [done|].
    change (EmptyString +:+ String c old) with (String c old).
    cbn [count_occurrences]. rewrite prefix_refl. lia.
  - change (String c stem +:+ old) with (String c (stem +:+ old)).
    cbn [count_occurrences]. lia.
Qed.

(** When [old] occurs once, at the very end, only that end changes. *)
Lemma replace_from_single_suffix (old new stem : string) :
  old ≠ EmptyString →
  count_occurrences old (stem +:+ old) = 1%nat →
  replace_from old new 0 (stem +:+ old) = stem +:+ new.
Proof.
  intros Hold. induction stem as [|c stem IH]; intros Hcount.
  - change (EmptyString +:+ old) with old.
    rewrite <- (append_empty_r old) at 2.
    rewrite replace_from_head by done. simpl. apply append_empty_r.
  - change (String c stem +:+ old) with (String c (stem +:+ old)) in *.
    cbn [count_occurrences] in Hcount.
    pose proof (count_occurrences_suffix old stem Hold) as Hge.
    cbn [replace_from].
    destruct (String.prefix old (String c (stem +:+ old))); [lia|].
    simpl in Hcount. by rewrite IH.
Qed.

(** C10. The old-file name is [job_key.replace('.odb', '-old.odb')]: every
    occurrence of ['.odb'] in the full path is replaced, from left to right
    (an occurrence at the head is replaced and the search resumes after it;
    a character that starts none is kept).  For every path in which
    ['.odb'] occurs once, as the final extension, the old name is the path
    with that extension replaced by ['-old.odb'].  For the path
    ['/data/run.odb/job.odb'], whose directory contains ['.odb'], the old
    name is ['/data/run-old.odb/job-old.odb'], which is not under the
    file's directory ['/data/run.odb/']. *)
Theorem old_name_replaces_every_occurrence :
  (∀ rest, old_name_of (".odb" +:+ rest) = "-old.odb" +:+ old_name_of rest)
  ∧ (∀ c rest, String.prefix ".odb" (String c rest) = false →
       old_name_of (String c rest) = String c (old_name_of rest))
  ∧ old_name_of "" = ""
  ∧ (∀ stem, count_occurrences ".odb" (stem +:+ ".odb") = 1%nat →
       old_name_of (stem +:+ ".odb") = stem +:+ "-old.odb")
  ∧ (old_name_of "/data/run.odb/job.odb" = "/data/run-old.odb/job-old.odb"
     ∧ ∀ file, old_name_of "/data/run.odb/job.odb" ≠ "/data/run.odb/" +:+ file).
Proof.
  unfold old_name_of, str_replace.
  split; [intros rest; by apply replace_from_head|].
  split; [intros c rest Hpre; cbn [replace_from]; by rewrite Hpre|].
  split; [done|].
  split; [intros stem; by apply replace_from_single_suffix|].
  split; [by vm_compute|].
  intros file. vm_compute. intros [=].
Qed.

(** A path with a single final extension, for instance. *)
Lemma old_name_single_extension_witness :
  count_occurrences ".odb" ("/jobs/beam" +:+ ".odb") = 1%nat
  ∧ old_name_of ("/jobs/beam" +:+ ".odb") = "/jobs/beam" +:+ "-old.odb".
Proof.
  split; [by vm_compute|].
  apply (proj1 (proj2 (proj2 (proj2 old_name_replaces_every_occurrence)))).
  by vm_compute.
Defined.

(** ** The set node extractor *)

Lemma od_setitem_fresh {V} (od : OrderedDict Z V) (k : Z) (v : V) :
  k ∉ od.*1 → od_setitem od k v = od ++ [(k, v)].
Proof.
  induction od as [|[k' v'] od IH]; intros Hk; simpl; [done|].
  rewrite fmap_cons, not_elem_of_cons in Hk. destruct Hk as [Hne Hk].
  simpl in Hne. destruct (k' =? k) eqn:Heq; [lia|]. by rewrite IH.
Qed.

Lemma OrderedDict_fold_NoDup {V} (od pairs : list (Z * V)) :
  NoDup ((od ++ pairs).*1) →
  foldl (λ od kv, od_setitem od kv.1 kv.2) od pairs = od ++ pairs.
Proof.
  revert od. induction pairs as [|[k v] pairs IH]; intros od Hnd; simpl.
  - by rewrite app_nil_r.
  - rewrite od_setitem_fresh.
    + rewrite IH; rewrite <- app_assoc; done.
    + rewrite fmap_app, NoDup_app in Hnd. destruct Hnd as (_ & Hdisj & _).
      intros Hin. apply (Hdisj k Hin). rewrite fmap_cons. apply list_elem_of_here.
Qed.

(** Distinct keys: the ordered dict lists the pairs as given. *)
Lemma OrderedDict_of_NoDup {V} (pairs : list (Z * V)) :
  NoDup (pairs.*1) → OrderedDict_of pairs = pairs.
Proof. intros Hnd. unfold OrderedDict_of. by rewrite OrderedDict_fold_NoDup. Qed.

Lemma od_setitem_keys {V} (od : OrderedDict Z V) (k : Z) (v : V) :
  (od_setitem od k v).*1 = if decide (k ∈ od.*1) then od.*1 else od.*1 ++ [k].
Proof.
  induction od as [|[k' v'] od IH].
  - done.
  - cbn [od_setitem]. destruct (k' =? k) eqn:Heq.
    + apply Z.eqb_eq in Heq as ->. rewrite decide_True; [done|].
      rewrite fmap_cons. apply list_elem_of_here.
    + apply Z.eqb_neq in Heq. rewrite !fmap_cons, IH. cbn [fst].
      destruct (decide (k ∈ od.*1)) as [Hin|Hout].
      * rewrite decide_True; [done | by apply list_elem_of_further].
      * rewrite decide_False; [done|].
        intros [?|?]%elem_of_cons; [congruence | done].
Qed.

Lemma od_setitem_NoDup {V} (od : OrderedDict Z V) (k : Z) (v : V) :
  NoDup od.*1 → NoDup (od_setitem od k v).*1.
Proof.
  intros Hnd. rewrite od_setitem_keys. destruct (decide (k ∈ od.*1)); [done|].
  apply NoDup_app. split; [done|]. split; [|apply NoDup_singleton].
  intros x Hx ->%list_elem_of_singleton. done.
Qed.

Lemma od_setitem_elem {V} (od : OrderedDict Z V) (k k' : Z) (v v' : V) :
  NoDup od.*1 →
  (k', v') ∈ od_setitem od k v ↔
  (k' = k ∧ v' = v) ∨ (k' ≠ k ∧ (k', v') ∈ od).
Proof.
  induction od as [|[k0 v0] od IH]; intros Hnd; simpl.
  - rewrite list_elem_of_singleton. split.
    + intros [= -> ->]. by left.
    + intros [[-> ->]|[_ ?%elem_of_nil]]; done.
  - rewrite fmap_cons in Hnd. apply NoDup_cons in Hnd as [Hfresh Hnd].
    cbn [fst] in Hfresh.
    destruct (k0 =? k) eqn:Heq.
    + apply Z.eqb_eq in Heq as ->. rewrite !elem_of_cons. split.
      * intros [[= -> ->]|Hin]; [by left|]. right.
        assert (k' ≠ k).
        { intros ->. apply Hfresh. apply list_elem_of_fmap. by exists (k, v'). }
        auto.
      * intros [[-> ->]|[Hne [[= ? ?]|Hin]]]; [by left | done | by right].
    + apply Z.eqb_neq in Heq. rewrite !elem_of_cons, (IH Hnd). split.
      * intros [[= -> ->]|[[-> ->]|[Hne Hin]]]; [right | by left | right]; auto.
      * intros [[-> ->]|[Hne [[= -> ->]|Hin]]]; auto.
Qed.

Lemma OrderedDict_of_snoc {V} (pairs : list (Z * V)) (k : Z) (v : V) :
  OrderedDict_of (pairs ++ [(k, v)]) = od_setitem (OrderedDict_of pairs) k v.
Proof. unfold OrderedDict_of. by rewrite foldl_app. Qed.

(** The ordered dict of a list of pairs: distinct keys, the keys of the
    pairs, each with the value of its last pair. *)
Lemma OrderedDict_of_last {V} (pairs : list (Z * V)) :
  NoDup (OrderedDict_of pairs).*1
  ∧ (∀ k, k ∈ (OrderedDict_of pairs).*1 ↔ k ∈ pairs.*1)
  ∧ (∀ k v, (k, v) ∈ OrderedDict_of pairs ↔
            ∃ l1 l2, pairs = l1 ++ (k, v) :: l2 ∧ k ∉ l2.*1).
Proof.
  induction pairs as [|[k0 v0] pairs (IHnd & IHkeys & IHelem)] using rev_ind.
  { split; [constructor|]. split.
    - done.
    - intros k v. split; [by intros ?%elem_of_nil|].
      intros (l1 & l2 & Heq & _). by destruct l1. }
  rewrite OrderedDict_of_snoc. split; [by apply od_setitem_NoDup|]. split.
  - intros k. rewrite od_setitem_keys, fmap_app, elem_of_app. simpl.
    rewrite list_elem_of_singleton, <- IHkeys.
    destruct (decide (k0 ∈ (OrderedDict_of pairs).*1)) as [Hin|Hout].
    + split; [by left|]. intros [?| ->]; done.
    + by rewrite elem_of_app, list_elem_of_singleton.
  - intros k v. rewrite (od_setitem_elem _ _ _ _ _ IHnd), IHelem. split.
    + intros [[-> ->]|[Hne (l1 & l2 & -> & Hlast)]].
      * exists pairs, []. split; [done | apply not_elem_of_nil].
      * exists l1, (l2 ++ [(k0, v0)]). split; [by rewrite <- app_assoc|].
        rewrite fmap_app, elem_of_app. simpl. rewrite list_elem_of_singleton.
        by intros [?|?].
    + intros (l1 & l2 & Heq & Hlast).
      destruct l2 as [|x l2 _] using rev_ind.
      * apply app_inj_tail in Heq as [_ [= <- <-]]. by left.
      * change (l1 ++ (k, v) :: l2 ++ [x]) with (l1 ++ ((k, v) :: l2) ++ [x]) in Heq.
        rewrite app_assoc in Heq. apply app_inj_tail in Heq as [-> <-].
        rewrite fmap_app, elem_of_app in Hlast. simpl in Hlast.
        rewrite list_elem_of_singleton in Hlast. right. split; [by auto|].
        exists l1, l2. split; [done | by auto].
Qed.

Lemma node_items_labels (nodes_num : list OdbMeshNode) :
  (node_items nodes_num).*1 = map label nodes_num.
Proof. unfold node_items. by rewrite <- list_fmap_compose. Qed.

(** A pair of the generator comes from a node, and the split of the pairs
    around it from a split of the nodes. *)
Lemma node_items_split (nodes_num : list OdbMeshNode) (lbl : Z) (xyz : Coordinates)
    (l1 l2 : list (Z * Coordinates)) :
  node_items nodes_num = l1 ++ (lbl, xyz) :: l2 →
  ∃ before node after,
    nodes_num = before ++ node :: after
    ∧ label node = lbl ∧ coordinates node = xyz
    ∧ l1 = node_items before ∧ l2 = node_items after.
Proof.
  unfold node_items. intros Heq.
  apply fmap_app_inv in Heq as (before & rest & -> & Hrest & ->).
  symmetry in Hrest.
  apply fmap_cons_inv in Hrest as (node & after & Hnode & -> & ->).
  injection Hnode as -> ->. by exists before, node, after.
Qed.

Lemma instances_dict_ok (node_set : OdbSet) (names : list string) (k : nat)
    (acc : gmap string (OrderedDict Z Coordinates)) :
  (k + length names ≤ length (nodes node_set))%nat →
  ∃ inner,
    instances_dict node_set (imap (λ i x, (Z.of_nat (k + i), x)) names) acc = Ok inner
    ∧ dom inner = dom acc ∪ list_to_set names
    ∧ (∀ name, name ∉ names → inner !! name = acc !! name)
    ∧ (NoDup names → ∀ i name, names !! i = Some name →
         ∃ nodes_num, nodes node_set !! (k + i)%nat = Some nodes_num
           ∧ inner !! name = Some (OrderedDict_of (node_items nodes_num))).
Proof.
  revert k acc. induction names as [|name names IH]; intros k acc Hlen.
  - exists acc. simpl. split; [done|]. split; [set_solver|]. split; [done|].
    by intros _ i name' ?.
  - simpl in Hlen. rewrite imap_cons. cbn [instances_dict].
    destruct (py_getitem_in_range (nodes node_set) (Z.of_nat (k + 0)))
      as (nodes_num & Hlook & ->); [unfold len; lia|].
    rewrite Nat2Z.id, Nat.add_0_r in Hlook.
    rewrite (imap_ext _ (λ i x, (Z.of_nat (S k + i), x)))
      by (intros i x _; simpl; do 2 f_equal; lia).
    destruct (IH (S k) (<[name := OrderedDict_of (node_items nodes_num)]> acc))
      as (inner & -> & Hdom & Hout & Hin); [lia|].
    exists inner. split; [done|]. split; [|split].
    + rewrite Hdom, dom_insert_L. set_solver.
    + intros name' Hname'. rewrite not_elem_of_cons in Hname'.
      destruct Hname' as [Hne Hname']. rewrite Hout by done.
      by rewrite lookup_insert_ne.
    + intros Hnd i name' Hi. apply NoDup_cons in Hnd as [Hfresh Hnd].
      destruct i as [|i]; simpl in Hi.
      * injection Hi as <-. exists nodes_num. rewrite Nat.add_0_r.
        split; [done|]. rewrite Hout by done. by rewrite lookup_insert_eq.
      * destruct (Hin Hnd i name' Hi) as (nd & Hnd' & Hinner).
        exists nd. split; [|done]. by replace (k + S i)%nat with (S k + i)%nat by lia.
Qed.

Lemma repo_getitem_keys {V} (repo : Repository V) (key : string) :
  (key ∈ repo_keys repo → ∃ v, repo_getitem repo key = Ok v)
  ∧ (key ∉ repo_keys repo → repo_getitem repo key = Raise (KeyError key)).
Proof.
  unfold repo_keys. induction repo as [|[k v] repo [IHin IHout]]; simpl.
  - split; [by intros ?%elem_of_nil | done].
  - destruct (String.eqb k key) eqn:Heq.
    + apply String.eqb_eq in Heq as ->.
      split; [by eexists|]. intros Hout. destruct Hout. apply list_elem_of_here.
    + apply String.eqb_neq in Heq.
      split.
      * intros [?|?]%elem_of_cons; [congruence | by apply IHin].
      * intros [? ?]%not_elem_of_cons. by apply IHout.
Qed.

Section properties2.
Context {St : Type} `{Host St}.

(** C4. Let the normalizer resolve the argument (a handle, or a path to
    one) to the result database [o].
    - If [set_name] is a key of [o.rootAssembly.nodeSets]: for its node set,
      with one node sequence per instance name, [mesh_extract_set_nodes]
      returns [{set_name: inner}]; the keys of [inner] are the instance
      names of the set; the instance name at position [num] is mapped to a
      dict [od] over the nodes at position [num]: its keys are distinct, and
      [label: xyz] is an entry of [od] exactly when a node of the sequence
      has that label and those coordinates and no later node has the label;
      with distinct labels, [od] lists [(node.label, node.coordinates)] for
      the nodes in their order.
    - If [set_name] is not a key: the function raises [KeyError]. *)
Theorem mesh_extract_set_nodes_spec (odb : odb_ish) (set_name : string)
    (w w1 : World St) (o : Odb) :
  odbs_odbobject_normalizer odb w = (Ok o, w1) →
  (set_name ∈ repo_keys (rootAssembly_nodeSets o) →
     ∃ node_set, repo_getitem (rootAssembly_nodeSets o) set_name = Ok node_set
     ∧ ((length (instanceNames node_set) ≤ length (nodes node_set))%nat →
        ∃ inner,
          mesh_extract_set_nodes odb set_name w = (Ok {[ set_name := inner ]}, w1)
          ∧ dom inner = list_to_set (instanceNames node_set)
          ∧ (NoDup (instanceNames node_set) →
             ∀ num instance_name,
               instanceNames node_set !! num = Some instance_name →
               ∃ nodes_num od,
                 nodes node_set !! num = Some nodes_num
                 ∧ inner !! instance_name = Some od
                 ∧ NoDup od.*1
                 ∧ (∀ lbl xyz, (lbl, xyz) ∈ od ↔
                      ∃ before node after,
                        nodes_num = before ++ node :: after
                        ∧ label node = lbl ∧ coordinates node = xyz
                        ∧ lbl ∉ map label after)
                 ∧ (NoDup (map label nodes_num) →
                    od = map (λ node, (label node, coordinates node)) nodes_num))))
  ∧ (set_name ∉ repo_keys (rootAssembly_nodeSets o) →
       mesh_extract_set_nodes odb set_name w = (Raise (KeyError set_name), w1)).
Proof.
  intros Hnorm. split.
  - intros Hin.
    destruct (proj1 (repo_getitem_keys _ _) Hin) as [node_set Hget].
    exists node_set. split; [done|]. intros Hlen.
    destruct (instances_dict_ok node_set (instanceNames node_set) 0 ∅)
      as (inner & Hdict & Hdom & _ & Hnth); [simpl; lia|].
    cbn [Nat.add] in Hdict. exists inner. split; [|split].
    + unfold mesh_extract_set_nodes, bind, lift, ret. rewrite Hnorm, Hget.
      unfold enumerate. by rewrite Hdict.
    + rewrite Hdom. set_solver.
    + intros Hnd num instance_name Hnum.
      destruct (Hnth Hnd num instance_name Hnum) as (nodes_num & Hnodes & Hinner).
      destruct (OrderedDict_of_last (node_items nodes_num)) as (Hkeys & _ & Hentries).
      exists nodes_num, (OrderedDict_of (node_items nodes_num)).
      split; [done|]. split; [done|]. split; [done|]. split.
      * intros lbl xyz. rewrite Hentries. split.
        -- intros (l1 & l2 & Heq & Hlast).
           destruct (node_items_split _ _ _ _ _ Heq)
             as (before & node & after & -> & <- & <- & -> & ->).
           exists before, node, after. by rewrite <- node_items_labels.
        -- intros (before & node & after & -> & <- & <- & Hlast).
           exists (node_items before), (node_items after).
           split; [by unfold node_items; rewrite fmap_app|].
           by rewrite node_items_labels.
      * intros Hlabels. apply OrderedDict_of_NoDup. by rewrite node_items_labels.
  - intros Hout.
    unfold mesh_extract_set_nodes, bind, lift, ret. rewrite Hnorm.
    by rewrite (proj2 (repo_getitem_keys _ _) Hout).
Qed.

(** ** The set renamer *)

Lemma models_loop_cons (set_name new_set_name key : string) (model : Model)
    (items : list (string * Model)) (w : World St) :
  models_loop set_name new_set_name ((key, model) :: items) w =
    match sets_changeKey (host w) model set_name new_set_name with
    | (Ok _, h1) =>
        models_loop set_name new_set_name items
          (mkWorld h1 (log w ++ [CallChangeKey model set_name new_set_name]))
    | (Raise e, h1) =>
        (Raise e, mkWorld h1 (log w ++ [CallChangeKey model set_name new_set_name]))
    end.
Proof.
  unfold models_loop. cbn [for_each]. unfold bind, changeKey, call.
  by destruct (sets_changeKey (host w) model set_name new_set_name) as [[[]|e] h1].
Qed.

Lemma models_loop_returns (set_name new_set_name : string)
    (items : list (string * Model)) (h h' : St) (calls : list Call) :
  changeKey_returns set_name new_set_name h items h' →
  models_loop set_name new_set_name items (mkWorld h calls) =
    (Ok tt, mkWorld h' (calls ++ changeKey_calls set_name new_set_name items)).
Proof.
  intros Hrun. revert calls.
  induction Hrun as [h|h h1 h2 key model items Hcall _ IH]; intros calls.
  - unfold models_loop. simpl. by rewrite app_nil_r.
  - rewrite models_loop_cons. simpl. rewrite Hcall, IH.
    by rewrite <- app_assoc.
Qed.

Lemma models_loop_raises (set_name new_set_name key : string) (model : Model)
    (done rest : list (string * Model)) (h h1 h2 : St) (e : exn) (calls : list Call) :
  changeKey_returns set_name new_set_name h done h1 →
  sets_changeKey h1 model set_name new_set_name = (Raise e, h2) →
  models_loop set_name new_set_name (done ++ (key, model) :: rest) (mkWorld h calls) =
    (Raise e,
     mkWorld h2 (calls ++ changeKey_calls set_name new_set_name (done ++ [(key, model)]))).
Proof.
  intros Hrun Hraise. revert calls.
  induction Hrun as [h|h h1 h1' key' model' items Hcall _ IH]; intros calls.
  - simpl. rewrite models_loop_cons. simpl. by rewrite Hraise.
  - simpl. rewrite models_loop_cons. simpl. rewrite Hcall, IH by done.
    by rewrite <- app_assoc.
Qed.

(** C3. [models_modify_set_name] takes the items of [mdb.models] and calls
    [changeKey(fromName=set_name, toName=new_set_name)] on the sets of each
    model's root assembly, in order.  It handles no exception.
    - When the call returns for every model, the function returns and has
      issued one call per model.
    - When the call raises for a model, whatever the exception (the one a
      host raises for a new name that is taken included), that exception is
      the outcome of the function, and no call is issued for the models
      after it. *)
Theorem models_modify_set_name_spec (set_name new_set_name : string) (w : World St) :
  (∀ h', changeKey_returns set_name new_set_name (host w) (mdb_models_items (host w)) h' →
     models_modify_set_name set_name new_set_name w =
       (Ok tt,
        mkWorld h' (log w ++ changeKey_calls set_name new_set_name
                                (mdb_models_items (host w)))))
  ∧ (∀ done key model rest h1 h2 e,
       mdb_models_items (host w) = done ++ (key, model) :: rest →
       changeKey_returns set_name new_set_name (host w) done h1 →
       sets_changeKey h1 model set_name new_set_name = (Raise e, h2) →
       models_modify_set_name set_name new_set_name w =
         (Raise e,
          mkWorld h2 (log w ++ changeKey_calls set_name new_set_name
                                  (done ++ [(key, model)])))).
Proof.
  split.
  - intros h' Hrun. unfold models_modify_set_name, bind, read.
    destruct w as [h calls]. by apply models_loop_returns.
  - intros done key model rest h1 h2 e Hitems Hrun Hraise.
    unfold models_modify_set_name, bind, read. rewrite Hitems.
    destruct w as [h calls]. by eapply models_loop_raises.
Qed.

(** ** The batch version upgrader *)

Lemma file_calls_app (l1 l2 : list Call) :
  file_calls (l1 ++ l2) = file_calls l1 ++ file_calls l2.
Proof. apply List.filter_app. Qed.

Lemma file_calls_upgrade_steps (temp_name job_key : string) :
  file_calls (upgrade_steps temp_name job_key) = upgrade_steps temp_name job_key.
Proof. done. Qed.

Lemma enumerate_snd {A} (l : list A) : (enumerate l).*2 = l.
Proof.
  unfold enumerate. rewrite fmap_imap.
  rewrite (imap_ext _ (λ _ x, x)) by done.
  induction l as [|x l IH]; [done|]. rewrite imap_cons. f_equal.
  by rewrite (imap_ext _ (λ _ x, x)).
Qed.

(** One pass of the loop: what it logs, whatever its outcome. *)
Lemma upgrade_body_outcome (temp_name : string) (print_every n : Z)
    (item : Z * string) (w : World St) :
  ∃ pre : list Call,
    file_calls (log (upgrade_body temp_name print_every n item w).2) =
      file_calls (log w) ++ pre
    ∧ match (upgrade_body temp_name print_every n item w).1 with
      | Ok _ => pre = upgrade_steps temp_name item.2
      | Raise _ => pre `prefix_of` upgrade_steps temp_name item.2
      end.
Proof.
  destruct item as [job_number job_key]. unfold upgrade_body, bind, lift, divmod.
  destruct (print_every =? 0).
  { exists []. simpl. rewrite app_nil_r. split; [done | apply prefix_nil]. }
  set (w0 := (if (job_number `div` print_every, job_number `mod` print_every).2 =? 0
              then print _ else ret tt) w).
  assert (Hw0 : file_calls (log w0.2) = file_calls (log w) ∧ w0.1 = Ok tt).
  { unfold w0. destruct (_ =? 0); simpl; [|done].
    rewrite file_calls_app. simpl. by rewrite app_nil_r. }
  destruct w0 as [r0 w0']. simpl in Hw0. destruct Hw0 as [Hlog0 ->].
  unfold upgradeOdb, rename, call. simpl.
  destruct (session_upgradeOdb (host w0') job_key temp_name) as [[[]|e1] h1]; simpl.
  2:{ exists [CallUpgradeOdb job_key temp_name]. rewrite file_calls_app, Hlog0.
      split; [done|]. by eexists. }
  destruct (os_rename h1 job_key (old_name_of job_key)) as [[[]|e2] h2]; simpl.
  2:{ exists [CallUpgradeOdb job_key temp_name; CallRename job_key (old_name_of job_key)].
      rewrite !file_calls_app, Hlog0, <- app_assoc. split; [done|]. by eexists. }
  destruct (os_rename h2 temp_name job_key) as [[[]|e3] h3]; simpl.
  - exists (upgrade_steps temp_name job_key).
    rewrite !file_calls_app, Hlog0, <- !app_assoc. done.
  - exists (upgrade_steps temp_name job_key).
    rewrite !file_calls_app, Hlog0, <- !app_assoc. done.
Qed.

(** The loop over any numbered list of files: a run that returns has made
    the three steps for every file; a run that raises has made them for the
    files before the one at which it raised, and a prefix of them for that
    one. *)
Lemma upgrade_for_each_outcome (temp_name : string) (print_every n : Z)
    (items : list (Z * string)) (w : World St) :
  let run := for_each items (upgrade_body temp_name print_every n) w in
  match run.1 with
  | Ok _ =>
      file_calls (log run.2) =
        file_calls (log w) ++ flat_map (upgrade_steps temp_name) items.*2
  | Raise _ =>
      ∃ done cur rest pre,
        items.*2 = done ++ cur :: rest
        ∧ pre `prefix_of` upgrade_steps temp_name cur
        ∧ file_calls (log run.2) =
            file_calls (log w) ++ flat_map (upgrade_steps temp_name) done ++ pre
  end.
Proof.
  revert w. induction items as [|item items IH]; intros w.
  { simpl. by rewrite app_nil_r. }
  cbn [for_each]. rewrite fmap_cons. cbn [flat_map]. unfold bind.
  destruct (upgrade_body_outcome temp_name print_every n item w) as (pre & Hlog & Hpre).
  destruct (upgrade_body temp_name print_every n item w) as [[[]|e] w1];
    cbn [fst snd] in *.
  - subst pre. specialize (IH w1).
    destruct (for_each items (upgrade_body temp_name print_every n) w1) as [[[]|e] w2];
      cbn [fst snd] in *.
    + rewrite IH, Hlog. by rewrite <- app_assoc.
    + destruct IH as (done & cur & rest & pre & Hitems & Hpre & Hlog2).
      exists (item.2 :: done), cur, rest, pre. rewrite Hitems. split; [done|].
      split; [done|]. rewrite Hlog2, Hlog. cbn [flat_map].
      by rewrite <- !app_assoc.
  - exists [], item.2, items.*2, pre. split; [done|]. split; [done|].
    by rewrite Hlog.
Qed.

(** With a non-zero [print_every] and host calls that return, the loop
    returns, and its log is one pass per file. *)
Lemma upgrade_for_each_returns (temp_name : string) (print_every n : Z)
    (items : list (Z * string)) (h h' : St) (calls : list Call) :
  print_every ≠ 0 →
  upgrades_return temp_name h items.*2 h' →
  for_each items (upgrade_body temp_name print_every n) (mkWorld h calls) =
    (Ok tt,
     mkWorld h' (calls ++ flat_map (upgrade_pass temp_name print_every n) items)).
Proof.
  intros Hpe. revert h calls.
  induction items as [|[job_number job_key] items IH]; intros h calls Hrun.
  - inversion Hrun; subst. simpl. by rewrite app_nil_r.
  - inversion Hrun as [|? h1 h2 h3 ? ? ? Hup Hren1 Hren2 Hrest]; subst.
    cbn [for_each]. unfold bind at 1.
    assert (Hbody : upgrade_body temp_name print_every n (job_number, job_key)
                      (mkWorld h calls) =
              (Ok tt, mkWorld h3 (calls ++ upgrade_pass temp_name print_every n
                                            (job_number, job_key)))).
    { unfold upgrade_body, upgrade_pass, bind, lift, divmod.
      replace (print_every =? 0) with false by lia.
      unfold upgradeOdb, rename, call, print, ret. simpl.
      destruct (job_number `mod` print_every =? 0); simpl.
      - rewrite Hup. simpl. rewrite Hren1. simpl. rewrite Hren2. simpl.
        by rewrite <- !app_assoc.
      - rewrite Hup. simpl. rewrite Hren1. simpl. rewrite Hren2. simpl.
        by rewrite <- !app_assoc. }
    rewrite Hbody, IH by done. simpl. by rewrite <- !app_assoc.
Qed.

(** The list comprehension keeps the files the host answers [True] for. *)
Lemma comprehension_if_answers (paths : list string) (verdicts : list bool)
    (h h' : St) (calls : list Call) :
  upgrade_answers h paths verdicts h' →
  comprehension_if paths isUpgradeRequiredForOdb (mkWorld h calls) =
    (Ok (kept paths verdicts),
     mkWorld h' (calls ++ map CallIsUpgradeRequired paths)).
Proof.
  intros Hrun. revert calls.
  induction Hrun as [h|h h1 h2 path b paths verdicts Hcall _ IH]; intros calls.
  - simpl. by rewrite app_nil_r.
  - cbn [comprehension_if]. unfold bind at 1, isUpgradeRequiredForOdb at 1, call.
    simpl. rewrite Hcall. unfold bind. rewrite IH. simpl.
    rewrite <- app_assoc. by destruct b.
Qed.

Lemma kept_lookup (paths : list string) (verdicts : list bool) (path : string) :
  path ∈ kept paths verdicts ↔
  ∃ i, paths !! i = Some path ∧ verdicts !! i = Some true.
Proof.
  revert verdicts. induction paths as [|x paths IH]; intros [|b verdicts]; simpl.
  - split; [by intros ?%elem_of_nil | by intros (i & ? & ?)].
  - split; [by intros ?%elem_of_nil | by intros (i & ? & ?)].
  - split; [by intros ?%elem_of_nil | by intros (i & ? & ?)].
  - destruct b.
    + rewrite elem_of_cons, IH. split.
      * intros [->|(i & ? & ?)]; [by exists 0%nat | by exists (S i)].
      * intros ([|i] & Hp & Hv); simpl in *; [left; congruence | right; eauto].
    + rewrite IH. split.
      * intros (i & ? & ?). by exists (S i).
      * intros ([|i] & Hp & Hv); simpl in *; [congruence | eauto].
Qed.

Lemma file_calls_upgrade_prologue (odbs_folder : string) (recursive : bool)
    (odb_list upgradable : list string) :
  file_calls (upgrade_prologue odbs_folder recursive odb_list upgradable) = [].
Proof.
  unfold upgrade_prologue. rewrite !file_calls_app. simpl.
  induction odb_list as [|path odb_list IH]; [done | apply IH].
Qed.

(** The function up to and after its loop, when the listing and the queries
    return. *)
Lemma odbs_upgrade_odbs_folder_unfold (odbs_folder : string) (recursive : bool)
    (print_every : Z) (w : World St) (odb_list : list string)
    (verdicts : list bool) (h1 h2 : St) :
  host_files_with_extension_lister (host w) odbs_folder ".odb" true recursive
    = (Ok odb_list, h1) →
  upgrade_answers h1 odb_list verdicts h2 →
  let upgradable := kept odb_list verdicts in
  odbs_upgrade_odbs_folder odbs_folder recursive print_every w =
    match upgrade_loop (os_path_join odbs_folder "temp_odb_name.odb") print_every
            upgradable
            (mkWorld h2 (log w ++ upgrade_prologue odbs_folder recursive odb_list
                                    upgradable)) with
    | (Ok _, w3) => (Ok tt, mkWorld (host w3) (log w3 ++ [CallPrint [PrStr "DONE"]]))
    | (Raise e, w3) => (Raise e, w3)
    end.
Proof.
  intros Hlist Hanswers upgradable.
  unfold odbs_upgrade_odbs_folder, bind at 1, files_with_extension_lister, call.
  rewrite Hlist. unfold bind at 1.
  rewrite (comprehension_if_answers _ _ _ _ _ Hanswers).
  unfold bind at 1, print at 1. cbn [host log]. unfold bind.
  fold upgradable. unfold upgrade_prologue. rewrite <- !app_assoc. simpl.
  by destruct (upgrade_loop _ print_every upgradable _) as [[[]|e] w3].
Qed.

(** C1. Let the listing of the ['.odb'] files of the folder (called with
    [sub_folders_option=recursive]) return [odb_list], and let the host
    answer [isUpgradeRequiredForOdb] for these files with [verdicts].  The
    files kept are exactly those answered [True], in list order.  Then:
    - in every run that returns, the calls that touch files are, for each
      kept file [p] in order, [upgradeOdb(p, temp)], [rename(p, old name of
      p)], [rename(temp, p)], with [temp] the single file
      ['temp_odb_name.odb'] joined to the folder, and nothing else: no other
      file is upgraded or renamed;
    - when [print_every] is not zero and these calls return, the run
      returns; its log is the listing, the queries, the summary line, one
      pass per kept file and the final line. *)
Theorem odbs_upgrade_odbs_folder_spec (odbs_folder : string) (recursive : bool)
    (print_every : Z) (w : World St) (odb_list : list string)
    (verdicts : list bool) (h1 h2 : St) :
  host_files_with_extension_lister (host w) odbs_folder ".odb" true recursive
    = (Ok odb_list, h1) →
  upgrade_answers h1 odb_list verdicts h2 →
  let temp_name := os_path_join odbs_folder "temp_odb_name.odb" in
  let upgradable := kept odb_list verdicts in
  let run := odbs_upgrade_odbs_folder odbs_folder recursive print_every w in
  (∀ path, path ∈ upgradable ↔
           ∃ i, odb_list !! i = Some path ∧ verdicts !! i = Some true)
  ∧ (run.1 = Ok tt →
     file_calls (log run.2) =
       file_calls (log w) ++ flat_map (upgrade_steps temp_name) upgradable)
  ∧ (∀ h3, print_every ≠ 0 →
       upgrades_return temp_name h2 upgradable h3 →
       run = (Ok tt,
              mkWorld h3
                (log w
                 ++ upgrade_prologue odbs_folder recursive odb_list upgradable
                 ++ flat_map (upgrade_pass temp_name print_every (len upgradable))
                      (enumerate upgradable)
                 ++ [CallPrint [PrStr "DONE"]]))).
Proof.
  intros Hlist Hanswers temp_name upgradable run.
  split; [apply kept_lookup|].
  pose proof (odbs_upgrade_odbs_folder_unfold odbs_folder recursive print_every
                w odb_list verdicts h1 h2 Hlist Hanswers) as Hrun.
  cbn zeta in Hrun. fold upgradable temp_name run in Hrun.
  split.
  - intros Hok. unfold upgrade_loop in Hrun.
    pose proof (upgrade_for_each_outcome temp_name print_every (len upgradable)
                  (enumerate upgradable)
                  (mkWorld h2 (log w ++ upgrade_prologue odbs_folder recursive
                                          odb_list upgradable))) as Hloop.
    cbn zeta in Hloop.
    destruct (for_each (enumerate upgradable) _ _) as [[[]|e] w3];
      rewrite Hrun in *; cbn [fst snd] in *; [|done].
    cbn [log]. rewrite file_calls_app, Hloop, enumerate_snd. cbn [log].
    rewrite file_calls_app, file_calls_upgrade_prologue. simpl.
    by rewrite !app_nil_r.
  - intros h3 Hpe Hreturns. rewrite Hrun. unfold upgrade_loop.
    rewrite (upgrade_for_each_returns temp_name print_every (len upgradable)
               (enumerate upgradable) h2 h3); [|done|by rewrite enumerate_snd].
    cbn [host log]. by rewrite <- !app_assoc.
Qed.

(** X17. With [print_every = 0] and at least one file to upgrade, the first
    pass raises [ZeroDivisionError] at [divmod], before any file is touched:
    the log holds the listing, the queries and the summary line only. *)
Remark upgrade_print_every_zero (odbs_folder : string) (recursive : bool)
    (w : World St) (odb_list : list string) (verdicts : list bool) (h1 h2 : St) :
  host_files_with_extension_lister (host w) odbs_folder ".odb" true recursive
    = (Ok odb_list, h1) →
  upgrade_answers h1 odb_list verdicts h2 →
  kept odb_list verdicts ≠ [] →
  odbs_upgrade_odbs_folder odbs_folder recursive 0 w =
    (Raise ZeroDivisionError,
     mkWorld h2 (log w ++ upgrade_prologue odbs_folder recursive odb_list
                             (kept odb_list verdicts))).
Proof.
  intros Hlist Hanswers Hne.
  rewrite (odbs_upgrade_odbs_folder_unfold _ _ _ _ _ _ _ _ Hlist Hanswers).
  cbn zeta. unfold upgrade_loop, enumerate.
  destruct (kept odb_list verdicts) as [|path paths]; [done|].
  by rewrite imap_cons.
Qed.

(** ** The batch timing collector *)

Lemma normalizer_resolves (path : string) (o : Odb) (opened : bool) (h h1 : St)
    (calls : list Call) :
  resolves h path o opened h1 →
  odbs_odbobject_normalizer (Path path) (mkWorld h calls) =
    (Ok o, mkWorld h1 (calls ++ if opened then [CallOpenOdb path false] else [])).
Proof.
  intros [h0 path0 o0 Hget | h0 h0' path0 key o0 Hget Hopen];
    unfold odbs_odbobject_normalizer, try_except, read_result; simpl; rewrite Hget.
  - by rewrite app_nil_r.
  - unfold openOdb, call. simpl. by rewrite Hopen.
Qed.

Lemma calc_time_loop_returns (show : bool) (paths : list string)
    (entries : list (Odb * bool * pyval)) (h h' : St)
    (output : gmap string pyval) (calls : list Call) :
  timings_return h paths entries h' →
  calc_time_loop paths show output (mkWorld h calls) =
    (Ok (timing_dict output paths entries),
     mkWorld h' (calls ++ timing_log show paths entries)).
Proof.
  intros Hrun. revert output calls.
  induction Hrun as [h|h h1 h2 path o opened t paths rest Hres Htime _ IH];
    intros output calls.
  - unfold calc_time_loop. simpl. by rewrite app_nil_r.
  - unfold calc_time_loop in *. cbn [for_fold]. unfold bind at 1. unfold bind at 1.
    rewrite (normalizer_resolves _ _ _ _ _ _ Hres). unfold bind at 1.
    rewrite odbs_get_calc_time_Handle. cbn zeta. unfold timing_of in Htime.
    rewrite Htime. unfold ret at 1.
    unfold timing_dict, timing_log. cbn [zip zip_with foldl flat_map fst snd].
    destruct show; cbn [host log]; rewrite IH; unfold timing_dict, timing_log,
      timing_pass; cbn [fst snd]; by rewrite <- !app_assoc.
Qed.

Lemma timings_return_length (paths : list string)
    (entries : list (Odb * bool * pyval)) (h h' : St) :
  timings_return h paths entries h' → length entries = length paths.
Proof. induction 1; simpl; congruence. Qed.

(** Every entry is the evaluation of the timing record of the handle its
    path resolved to. *)
Lemma timings_return_lookup (paths : list string)
    (entries : list (Odb * bool * pyval)) (h h' : St) (i : nat) (path : string)
    (o : Odb) (opened : bool) (t : pyval) :
  timings_return h paths entries h' →
  paths !! i = Some path → entries !! i = Some (o, opened, t) →
  timing_of o = Ok t ∧ ∃ ha hb, resolves ha path o opened hb.
Proof.
  intros Hrun. revert i.
  induction Hrun as [h|h h1 h2 path' o' opened' t' paths rest Hres Htime _ IH];
    intros [|i] Hp He; simpl in *; try done.
  - injection Hp as ->. injection He as -> -> ->. eauto.
  - by apply (IH i).
Qed.

Lemma timing_dict_dom (output : gmap string pyval) (paths : list string)
    (entries : list (Odb * bool * pyval)) :
  length entries = length paths →
  dom (timing_dict output paths entries) = dom output ∪ list_to_set paths.
Proof.
  unfold timing_dict. revert output entries.
  induction paths as [|path paths IH]; intros output [|entry entries] Hlen;
    simpl in *; try done.
  - set_solver.
  - rewrite IH by lia. rewrite dom_insert_L. set_solver.
Qed.

Lemma timing_dict_lookup (output : gmap string pyval) (paths : list string)
    (entries : list (Odb * bool * pyval)) (path : string) (t : pyval) :
  timing_dict output paths entries !! path = Some t →
  output !! path = Some t
  ∨ ∃ i o opened, paths !! i = Some path ∧ entries !! i = Some (o, opened, t).
Proof.
  unfold timing_dict. revert output entries.
  induction paths as [|path' paths IH]; intros output [|[[o opened] t'] entries];
    simpl; try (by left).
  intros Hlook. destruct (IH _ _ Hlook) as [Hout | (i & o' & opened' & Hp & He)].
  - destruct (decide (path' = path)) as [->|Hne].
    + rewrite lookup_insert_eq in Hout. injection Hout as ->.
      right. by exists 0%nat, o, opened.
    + rewrite lookup_insert_ne in Hout by done. by left.
  - right. by exists (S i), o', opened'.
Qed.

Lemma timing_dict_fresh (output : gmap string pyval) (paths : list string)
    (entries : list (Odb * bool * pyval)) (path : string) :
  path ∉ paths → timing_dict output paths entries !! path = output !! path.
Proof.
  unfold timing_dict. revert output entries.
  induction paths as [|path' paths IH]; intros output [|entry entries] Hfresh;
    simpl; try done.
  apply not_elem_of_cons in Hfresh as [Hne Hfresh].
  rewrite IH by done. by rewrite lookup_insert_ne.
Qed.

Lemma timing_dict_NoDup (output : gmap string pyval) (paths : list string)
    (entries : list (Odb * bool * pyval)) (i : nat) (path : string)
    (o : Odb) (opened : bool) (t : pyval) :
  NoDup paths →
  paths !! i = Some path → entries !! i = Some (o, opened, t) →
  timing_dict output paths entries !! path = Some t.
Proof.
  intros Hnd. revert output entries i.
  induction Hnd as [|path' paths Hfresh Hnd IH]; intros output [|entry entries] [|i];
    simpl; try done.
  - intros [= ->] [= ->]. unfold timing_dict. simpl.
    fold (timing_dict (<[path := t]> output) paths entries).
    rewrite timing_dict_fresh by done. by rewrite lookup_insert_eq.
  - intros Hp He. unfold timing_dict. simpl. by apply (IH _ _ i).
Qed.

Lemma close_calls_app (l1 l2 : list Call) :
  close_calls (l1 ++ l2) = close_calls l1 ++ close_calls l2.
Proof. apply List.filter_app. Qed.

Lemma close_calls_timing_log (show : bool) (paths : list string)
    (entries : list (Odb * bool * pyval)) :
  close_calls (timing_log show paths entries) = [].
Proof.
  unfold timing_log. revert entries.
  induction paths as [|path paths IH]; intros [|[[o opened] t] entries]; simpl;
    try done.
  rewrite close_calls_app, IH. unfold timing_pass. simpl.
  by destruct opened, show.
Qed.

(** The function up to and after its loop, when the listing returns. *)
Lemma odbs_get_calc_time_folder_unfold (odbs_folder : string)
    (show recursive close_odbs : bool) (w : World St) (odb_list : list string)
    (h1 : St) :
  host_files_with_extension_lister (host w) odbs_folder ".odb" true recursive
    = (Ok odb_list, h1) →
  odbs_get_calc_time_folder odbs_folder show recursive close_odbs w =
    match calc_time_loop odb_list show ∅
            (mkWorld h1 (log w ++ timing_prologue odbs_folder recursive odb_list)) with
    | (Ok output, w2) =>
        if close_odbs
        then match host_odbs_close_all_odbs (host w2) with
             | (Ok _, h3) => (Ok output, mkWorld h3 (log w2 ++ [CallCloseAll]))
             | (Raise e, h3) => (Raise e, mkWorld h3 (log w2 ++ [CallCloseAll]))
             end
        else (Ok output, w2)
    | (Raise e, w2) => (Raise e, w2)
    end.
Proof.
  intros Hlist.
  unfold odbs_get_calc_time_folder, bind at 1, files_with_extension_lister, call.
  rewrite Hlist. unfold bind at 1, print at 1. cbn [host log]. unfold bind at 1.
  unfold timing_prologue. rewrite <- app_assoc. simpl.
  destruct (calc_time_loop odb_list show ∅ _) as [[output|e] w2]; [|done].
  unfold bind, odbs_close_all_odbs, call, ret. destruct close_odbs; [|done].
  by destruct (host_odbs_close_all_odbs (host w2)) as [[[]|e] h3].
Qed.

(** C6. Let the listing of the ['.odb'] files of the folder (called with
    [sub_folders_option=recursive]) return [odb_list]; let every listed path
    resolve in turn, through the normalizer, to a handle whose timing record
    evaluates; and let the closing call return when [close_odbs] is set.
    Then [odbs_get_calc_time_folder] returns a dict whose keys are exactly
    the listed paths; every value is the timing dict of the handle its path
    resolved to, and a path listed once has the timing dict of its own
    handle.  The calls are the listing, the count line, per path the open
    call when the file was not open yet and the line under [show], and
    last, exactly when [close_odbs] is set, one call that closes all open
    result handles. *)
Theorem odbs_get_calc_time_folder_spec (odbs_folder : string)
    (show recursive close_odbs : bool) (w : World St) (odb_list : list string)
    (entries : list (Odb * bool * pyval)) (h1 h2 h3 : St) :
  host_files_with_extension_lister (host w) odbs_folder ".odb" true recursive
    = (Ok odb_list, h1) →
  timings_return h1 odb_list entries h2 →
  (if close_odbs then host_odbs_close_all_odbs h2 = (Ok tt, h3) else h3 = h2) →
  ∃ output,
    odbs_get_calc_time_folder odbs_folder show recursive close_odbs w =
      (Ok output,
       mkWorld h3
         (log w ++ timing_prologue odbs_folder recursive odb_list
          ++ timing_log show odb_list entries
          ++ (if close_odbs then [CallCloseAll] else [])))
    ∧ dom output = list_to_set odb_list
    ∧ (∀ path t, output !! path = Some t →
         ∃ i o opened,
           odb_list !! i = Some path ∧ entries !! i = Some (o, opened, t)
           ∧ timing_of o = Ok t ∧ ∃ ha hb, resolves ha path o opened hb)
    ∧ (NoDup odb_list → ∀ i path o opened t,
         odb_list !! i = Some path → entries !! i = Some (o, opened, t) →
         output !! path = Some t)
    ∧ close_calls (timing_prologue odbs_folder recursive odb_list
                   ++ timing_log show odb_list entries
                   ++ (if close_odbs then [CallCloseAll] else []))
      = (if close_odbs then [CallCloseAll] else []).
Proof.
  intros Hlist Hrun Hclose.
  exists (timing_dict ∅ odb_list entries).
  split; [|split; [|split; [|split]]].
  - rewrite (odbs_get_calc_time_folder_unfold _ _ _ _ _ _ _ Hlist).
    rewrite (calc_time_loop_returns _ _ _ _ _ _ _ Hrun). cbn [host log].
    destruct close_odbs.
    + rewrite Hclose. by rewrite <- !app_assoc.
    + subst h3. by rewrite !app_nil_r, <- app_assoc.
  - rewrite timing_dict_dom by (by eapply timings_return_length).
    rewrite dom_empty_L. set_solver.
  - intros path t Hlook.
    destruct (timing_dict_lookup _ _ _ _ _ Hlook)
      as [Hempty | (i & o & opened & Hp & He)]; [by rewrite lookup_empty in Hempty|].
    exists i, o, opened. split; [done|]. split; [done|].
    by eapply timings_return_lookup.
  - intros Hnd i path o opened t Hp He. by eapply timing_dict_NoDup.
  - rewrite !close_calls_app, close_calls_timing_log. by destruct close_odbs.
Qed.

(** ** Exceptions during batch processing *)

(** The timing loop stops at the first path whose step raises. *)
Lemma calc_time_loop_raises (show : bool) (done rest : list string) (path : string)
    (entries : list (Odb * bool * pyval)) (h h2 h3 : St) (e : exn)
    (step : list Call) (output : gmap string pyval) (calls : list Call) :
  timings_return h done entries h2 →
  timing_step_raises h2 path e step h3 →
  calc_time_loop (done ++ path :: rest) show output (mkWorld h calls) =
    (Raise e, mkWorld h3 (calls ++ timing_log show done entries ++ step)).
Proof.
  intros Hrun Hstep. revert output calls.
  induction Hrun as [h|h h1 h2 path' o opened t paths entries Hres Htime _ IH];
    intros output calls.
  - unfold calc_time_loop, timing_log. cbn [app for_fold zip zip_with flat_map].
    unfold bind at 1. unfold bind at 1.
    destruct Hstep as [h path e Hget Hother | h h1 path key e Hget Hopen
                      | h h1 path o opened e Hres Htime].
    + unfold odbs_odbobject_normalizer, try_except, read_result. cbn [host].
      rewrite Hget, app_nil_r.
      destruct e; try done. by destruct (Hother key).
    + unfold odbs_odbobject_normalizer, try_except, read_result. cbn [host].
      rewrite Hget. unfold openOdb, call. cbn [host log]. by rewrite Hopen.
    + rewrite (normalizer_resolves _ _ _ _ _ _ Hres). unfold bind at 1.
      rewrite odbs_get_calc_time_Handle. cbn zeta. unfold timing_of in Htime.
      by rewrite Htime.
  - unfold calc_time_loop in *. cbn [app for_fold]. unfold bind at 1. unfold bind at 1.
    rewrite (normalizer_resolves _ _ _ _ _ _ Hres). unfold bind at 1.
    rewrite odbs_get_calc_time_Handle. cbn zeta. unfold timing_of in Htime.
    rewrite Htime. unfold ret at 1.
    unfold timing_log. cbn [zip zip_with flat_map fst snd].
    destruct show; cbn [host log]; rewrite (IH Hstep); unfold timing_log, timing_pass;
      cbn [fst snd]; by rewrite <- !app_assoc.
Qed.

Lemma close_calls_timing_prologue (odbs_folder : string) (recursive : bool)
    (odb_list : list string) :
  close_calls (timing_prologue odbs_folder recursive odb_list) = [].
Proof. done. Qed.

Lemma timing_step_raises_calls (h h1 : St) (path : string) (e : exn)
    (step : list Call) :
  timing_step_raises h path e step h1 →
  step = [] ∨ step = [CallOpenOdb path false].
Proof. intros [| |? ? ? ? []]; auto. Qed.

Lemma for_each_app {A} (l1 l2 : list A) (body : A → M St unit) (w : World St) :
  for_each (l1 ++ l2) body w =
    match for_each l1 body w with
    | (Ok _, w1) => for_each l2 body w1
    | (Raise e, w1) => (Raise e, w1)
    end.
Proof.
  revert w. induction l1 as [|x l1 IH]; intros w; [done|].
  cbn [app for_each]. unfold bind.
  destruct (body x w) as [[[]|e] w1]; [apply IH | done].
Qed.

(** One pass of the upgrade loop whose step raises. *)
Lemma upgrade_body_raises (temp_name : string) (print_every n : Z)
    (item : Z * string) (h h1 : St) (e : exn) (step calls : list Call) :
  print_every ≠ 0 →
  upgrade_step_raises temp_name h item.2 e step h1 →
  upgrade_body temp_name print_every n item (mkWorld h calls) =
    (Raise e, mkWorld h1 (calls ++ upgrade_progress print_every n item ++ step)).
Proof.
  intros Hpe Hstep. destruct item as [job_number job_key]. cbn [snd] in Hstep.
  unfold upgrade_body, upgrade_progress, bind, lift, divmod.
  replace (print_every =? 0) with false by lia.
  unfold upgradeOdb, rename, call, print, ret. cbn [fst snd].
  destruct Hstep as [h h1 path e Hup | h h1 h2 path e Hup Hren1
                    | h h1 h2 h3 path e Hup Hren1 Hren2];
    destruct (job_number `mod` print_every =? 0); cbn [host log];
    rewrite Hup; cbn [host log]; rewrite <- ?app_assoc; try done;
    rewrite Hren1; cbn [host log]; rewrite <- ?app_assoc; try done;
    rewrite Hren2; cbn [host log]; by rewrite <- ?app_assoc.
Qed.

(** The upgrade loop stops at the first file whose step raises. *)
Lemma upgrade_for_each_raises (temp_name : string) (print_every n : Z)
    (done rest : list (Z * string)) (item : Z * string) (h h1 h2 : St) (e : exn)
    (step calls : list Call) :
  print_every ≠ 0 →
  upgrades_return temp_name h done.*2 h1 →
  upgrade_step_raises temp_name h1 item.2 e step h2 →
  for_each (done ++ item :: rest) (upgrade_body temp_name print_every n)
    (mkWorld h calls) =
    (Raise e,
     mkWorld h2 (calls ++ flat_map (upgrade_pass temp_name print_every n) done
                       ++ upgrade_progress print_every n item ++ step)).
Proof.
  intros Hpe Hdone Hstep.
  rewrite for_each_app, (upgrade_for_each_returns _ _ _ _ _ _ _ Hpe Hdone).
  cbn [for_each]. unfold bind.
  rewrite (upgrade_body_raises _ _ _ _ _ _ _ _ _ Hpe Hstep).
  by rewrite <- !app_assoc.
Qed.

Lemma enumerate_app_cons {A} (l1 l2 : list A) (x : A) :
  ∃ rest, enumerate (l1 ++ x :: l2) = enumerate l1 ++ (len l1, x) :: rest.
Proof.
  unfold enumerate, len. rewrite imap_app, imap_cons, Nat.add_0_r. by eexists.
Qed.

Lemma file_calls_upgrade_pass (temp_name : string) (print_every n : Z)
    (items : list (Z * string)) :
  file_calls (flat_map (upgrade_pass temp_name print_every n) items) =
    flat_map (upgrade_steps temp_name) items.*2.
Proof.
  induction items as [|item items IH]; [done|].
  cbn [flat_map]. rewrite fmap_cons, file_calls_app, IH. cbn [flat_map].
  f_equal. unfold upgrade_pass. rewrite file_calls_app.
  by destruct (item.1 `mod` print_every =? 0).
Qed.

Lemma file_calls_upgrade_progress (print_every n : Z) (item : Z * string) :
  file_calls (upgrade_progress print_every n item) = [].
Proof. unfold upgrade_progress. by destruct (_ =? 0). Qed.

Lemma upgrade_step_raises_calls (temp_name : string) (h h1 : St) (path : string)
    (e : exn) (step : list Call) :
  upgrade_step_raises temp_name h path e step h1 →
  file_calls step = step
  ∧ step ≠ []
  ∧ step `prefix_of` upgrade_steps temp_name path.
Proof.
  intros [ha hb p e0 _ | ha hb hc p e0 _ _ | ha hb hc hd p e0 _ _ _];
    (split; [reflexivity|]); (split; [discriminate|]); unfold upgrade_steps.
  - by exists [CallRename p (old_name_of p); CallRename temp_name p].
  - by exists [CallRename temp_name p].
  - done.
Qed.

(** C7. An exception in a per-file step of batch processing ends the
    function there; nothing is closed and nothing is undone.
    - In [odbs_get_calc_time_folder]: let the listing return the paths
      [done ++ path :: rest], let the paths of [done] resolve in turn to
      handles whose timing records evaluate, and let the step of [path]
      raise [e] (in the registry lookup, in the opening, or in the
      evaluation of the timing record).  Then the function raises [e]; the
      host is left as that step left it; the calls are the listing, the
      count line, those of the paths of [done] and those of the failing
      step; no call closes handles, whatever [close_odbs]; and the handles
      opened are those of paths of [done] and of [path], none of [rest].
    - In [odbs_upgrade_odbs_folder]: let the kept files be
      [done ++ path :: rest], let the upgrade and the two renames return for
      the files of [done], and let the step of [path] raise [e] (in the
      upgrade, in the first rename or in the second).  Then, with a non-zero
      [print_every], the function raises [e]; the host is left as that step
      left it; the calls that touch files are the three steps of every file
      of [done], which stay renamed, then the calls of the failing step, a
      non-empty prefix of the three steps of [path], and none for [rest];
      the final line is not printed. *)
Theorem batch_exception_leaves_state :
  (∀ odbs_folder show recursive close_odbs (w : World St) done path rest entries
     h1 h2 h3 e step,
     host_files_with_extension_lister (host w) odbs_folder ".odb" true recursive
       = (Ok (done ++ path :: rest), h1) →
     timings_return h1 done entries h2 →
     timing_step_raises h2 path e step h3 →
     let new := timing_prologue odbs_folder recursive (done ++ path :: rest)
                ++ timing_log show done entries ++ step in
     odbs_get_calc_time_folder odbs_folder show recursive close_odbs w =
       (Raise e, mkWorld h3 (log w ++ new))
     ∧ close_calls new = []
     ∧ (∀ p readOnly, CallOpenOdb p readOnly ∈ new → p ∈ done ++ [path]))
  ∧ (∀ odbs_folder recursive print_every (w : World St) odb_list verdicts
       done path rest h1 h2 h3 h4 e step,
       let temp_name := os_path_join odbs_folder "temp_odb_name.odb" in
       host_files_with_extension_lister (host w) odbs_folder ".odb" true recursive
         = (Ok odb_list, h1) →
       upgrade_answers h1 odb_list verdicts h2 →
       kept odb_list verdicts = done ++ path :: rest →
       print_every ≠ 0 →
       upgrades_return temp_name h2 done h3 →
       upgrade_step_raises temp_name h3 path e step h4 →
       let n := len (done ++ path :: rest) in
       let new := upgrade_prologue odbs_folder recursive odb_list (done ++ path :: rest)
                  ++ flat_map (upgrade_pass temp_name print_every n) (enumerate done)
                  ++ upgrade_progress print_every n (len done, path)
                  ++ step in
       odbs_upgrade_odbs_folder odbs_folder recursive print_every w =
         (Raise e, mkWorld h4 (log w ++ new))
       ∧ file_calls new = flat_map (upgrade_steps temp_name) done ++ step
       ∧ step ≠ []
       ∧ step `prefix_of` upgrade_steps temp_name path).
Proof.
  split.
  - intros odbs_folder show recursive close_odbs w done path rest entries
      h1 h2 h3 e step Hlist Hdone Hstep new.
    split; [|split].
    + rewrite (odbs_get_calc_time_folder_unfold _ _ _ _ _ _ _ Hlist).
      rewrite (calc_time_loop_raises _ _ _ _ _ _ _ _ _ _ _ _ Hdone Hstep).
      unfold new. by rewrite <- !app_assoc.
    + unfold new. rewrite !close_calls_app, close_calls_timing_prologue.
      rewrite (close_calls_timing_log show done entries).
      by destruct (timing_step_raises_calls _ _ _ _ _ Hstep) as [-> | ->].
    + intros p readOnly. unfold new, timing_prologue.
      rewrite !elem_of_app, !elem_of_cons.
      intros [[?|[?|?%elem_of_nil]]|[Hin|Hin]]; try done.
      * left. unfold timing_log in Hin. apply list_elem_of_In, in_flat_map in Hin.
        destruct Hin as ([p' entry] & Hzip%list_elem_of_In & Hpass%list_elem_of_In).
        unfold timing_pass in Hpass. cbn [fst snd] in Hpass.
        apply elem_of_zip_l in Hzip.
        rewrite elem_of_app in Hpass. destruct Hpass as [Hpass|Hpass].
        -- destruct (entry.1.2); [|by apply elem_of_nil in Hpass].
           apply list_elem_of_singleton in Hpass. by injection Hpass as -> _.
        -- destruct show; [|by apply elem_of_nil in Hpass].
           by apply list_elem_of_singleton in Hpass.
      * right.
        destruct (timing_step_raises_calls _ _ _ _ _ Hstep) as [-> | ->].
        -- by apply elem_of_nil in Hin.
        -- apply list_elem_of_singleton in Hin. injection Hin as -> _. by left.
  - intros odbs_folder recursive print_every w odb_list verdicts done path rest
      h1 h2 h3 h4 e step temp_name Hlist Hanswers Hkept Hpe Hdone Hstep n new.
    destruct (upgrade_step_raises_calls _ _ _ _ _ _ Hstep) as (Hfile & Hne & Hpre).
    split; [|split; [|done]].
    + rewrite (odbs_upgrade_odbs_folder_unfold _ _ _ _ _ _ _ _ Hlist Hanswers).
      cbn zeta. rewrite Hkept. unfold upgrade_loop.
      destruct (enumerate_app_cons done rest path) as [items Henum].
      rewrite Henum.
      rewrite (upgrade_for_each_raises temp_name print_every n (enumerate done) items
                 (len done, path) h2 h3 h4 e step _ Hpe);
        [| by rewrite enumerate_snd | done].
      unfold new. by rewrite <- !app_assoc.
    + unfold new. rewrite !file_calls_app, file_calls_upgrade_prologue.
      rewrite file_calls_upgrade_pass, enumerate_snd, file_calls_upgrade_progress.
      by rewrite Hfile.
Qed.

End properties2.

(** * The properties on the small host *)

(** The upgrader on [/jobs], sub-folders included: [beam] and [truss] are
    upgraded and renamed, [plate] is left alone. *)
Lemma odbs_upgrade_odbs_folder_witness :
  let run := odbs_upgrade_odbs_folder "/jobs" true 1 Demo.w0 in
  run.1 = Ok tt
  ∧ file_calls (log run.2) =
      [CallUpgradeOdb "/jobs/beam.odb" "/jobs/temp_odb_name.odb";
       CallRename "/jobs/beam.odb" "/jobs/beam-old.odb";
       CallRename "/jobs/temp_odb_name.odb" "/jobs/beam.odb";
       CallUpgradeOdb "/jobs/sub/truss.odb" "/jobs/temp_odb_name.odb";
       CallRename "/jobs/sub/truss.odb" "/jobs/sub/truss-old.odb";
       CallRename "/jobs/temp_odb_name.odb" "/jobs/sub/truss.odb"].
Proof.
  destruct (odbs_upgrade_odbs_folder_spec (St := Demo.state) "/jobs" true 1 Demo.w0
              ["/jobs/beam.odb"; "/jobs/plate.odb"; "/jobs/sub/truss.odb"]
              [true; false; true] Demo.h0 Demo.h0)
    as (_ & Hfiles & Hreturns).
  - reflexivity.
  - repeat (eapply upgrade_answers_cons; [reflexivity|]).
    apply upgrade_answers_nil.
  - assert (Hok : (odbs_upgrade_odbs_folder "/jobs" true 1 Demo.w0).1 = Ok tt).
    { erewrite Hreturns; [reflexivity | lia |].
      repeat (eapply upgrades_return_cons; [reflexivity | reflexivity | reflexivity |]).
      apply upgrades_return_nil. }
    split; [exact Hok|]. exact (Hfiles Hok).
Defined.

(** The normalizer: [plate] is registered, [beam] has to be opened, a handle
    is returned as it is. *)
Lemma normalizer_cases_witness :
  odbs_odbobject_normalizer (Path "/jobs/plate.odb") Demo.w0 = (Ok Demo.plate, Demo.w0)
  ∧ (odbs_odbobject_normalizer (Path "/jobs/beam.odb") Demo.w0).1 = Ok Demo.beam
  ∧ log (odbs_odbobject_normalizer (Path "/jobs/beam.odb") Demo.w0).2 =
      [CallOpenOdb "/jobs/beam.odb" false]
  ∧ odbs_odbobject_normalizer (Handle Demo.truss) Demo.w0 = (Ok Demo.truss, Demo.w0).
Proof.
  destruct (normalizer_cases Demo.w0) as (Hregistered & Hopen & Hhandle & _).
  split; [by apply Hregistered|].
  rewrite (Hopen "/jobs/beam.odb" "/jobs/beam.odb" eq_refl).
  split; [reflexivity|]. split; [reflexivity|]. apply Hhandle.
Defined.

(** The timing extractor on the handle of [beam]. *)
Lemma odbs_get_calc_time_witness :
  ∃ w', odbs_get_calc_time (Handle Demo.beam) true Demo.w0 = (Ok Demo.timing, w')
        ∧ host w' = Demo.h0.
Proof.
  destruct (proj2 (@odbs_get_calc_time_spec Demo.state Demo.host_calls
                     Demo.beam true Demo.w0)
              "("%char ")"%char
              "{'systemTime': 7.3, 'userTime': 34.0, 'wallclockTime': 37.0}"
              (Qmake 73 10) (Qmake 34 1) (Qmake 37 1) eq_refl
              ltac:(vm_compute; reflexivity))
    as (w' & Hrun & Hhost & _).
  exists w'. split; [exact Hrun | exact Hhost].
Defined.

(** The timing extractor on the path of [beam]: the file is opened, then the
    attribute access on the string fails. *)
Lemma odbs_get_calc_time_on_path_witness :
  (odbs_get_calc_time (Path "/jobs/beam.odb") true Demo.w0).1 =
    Raise (AttributeError "diagnosticData")
  ∧ ∃ o, Handle Demo.beam = Handle o.
Proof.
  destruct (odbs_get_calc_time_on_path true Demo.w0) as [Hpath Hhandle].
  split.
  - destruct (Hpath "/jobs/beam.odb") as (e & w' & -> & Hattr).
    destruct (Hattr Demo.beam _ eq_refl) as [-> _]. reflexivity.
  - apply (Hhandle (Handle Demo.beam) Demo.timing _ eq_refl).
Defined.

(** Two open result databases: position 1 of the sorted names, whatever the
    order in which the host lists them. *)
Lemma retrieve_name_by_index_witness :
  let w1 := mkWorld (Demo.h_open [("/jobs/plate.odb", Demo.plate);
                                  ("/jobs/beam.odb", Demo.beam)]) [] in
  let w2 := mkWorld (Demo.h_open [("/jobs/beam.odb", Demo.beam);
                                  ("/jobs/plate.odb", Demo.plate)]) [] in
  (odbs_retrieve_odb_name 1 false w1).1 = Ok "/jobs/plate.odb"
  ∧ (odbs_retrieve_odb_name 1 false w2).1 = (odbs_retrieve_odb_name 1 false w1).1
  ∧ (odbs_retrieve_set_name (Path "/jobs/plate.odb") 1 false w1).1 = Ok "FIXED".
Proof.
  intros w1 w2.
  destruct (retrieve_name_by_index 1 false w1)
    as (Hodb & Hset & _ & Hrange & Horder & _).
  split; [|split].
  - rewrite Hodb.
    destruct (Hrange (session_odbs_keys (host w1))) as (key & Hkey & ->);
      [by vm_compute|].
    vm_compute in Hkey. by injection Hkey as <-.
  - apply Horder. apply perm_swap.
  - rewrite (Hset (Path "/jobs/plate.odb") Demo.plate w1 eq_refl). reflexivity.
Defined.

(** The node set ["ALL_NODES"] of [beam] has two instances; the first has
    two nodes. *)
Lemma mesh_extract_set_nodes_witness :
  ∃ inner,
    mesh_extract_set_nodes (Handle Demo.beam) "ALL_NODES" Demo.w0 =
      (Ok {[ "ALL_NODES" := inner ]}, Demo.w0)
    ∧ inner !! "PART-1-1" =
        Some [(1, [Qmake 0 1; Qmake 0 1; Qmake 0 1]);
              (2, [Qmake 1 1; Qmake 0 1; Qmake 0 1])]
    ∧ inner !! "PART-2-1" = Some [(1, [Qmake 0 1; Qmake 5 1; Qmake 0 1])]
    ∧ mesh_extract_set_nodes (Handle Demo.beam) "LOADED" Demo.w0 =
        (Raise (KeyError "LOADED"), Demo.w0).
Proof.
  destruct (mesh_extract_set_nodes_spec (St := Demo.state)
              (Handle Demo.beam) "ALL_NODES" Demo.w0 Demo.w0 Demo.beam eq_refl)
    as [Hin _].
  destruct Hin as (node_set & Hget & Hinner).
  { apply list_elem_of_In. vm_compute. tauto. }
  injection Hget as <-.
  destruct Hinner as (inner & Hrun & _ & Hnth); [vm_compute; lia|].
  assert (Hnd : NoDup (instanceNames Demo.all_nodes)).
  { apply (bool_decide_unpack _). by vm_compute. }
  exists inner. split; [exact Hrun|]. split; [|split].
  - destruct (Hnth Hnd 0%nat "PART-1-1" eq_refl)
      as (nodes_num & od & Hnodes & Hlook & _ & _ & Hod).
    injection Hnodes as <-. rewrite Hod in Hlook; [exact Hlook|].
    apply (bool_decide_unpack _). by vm_compute.
  - destruct (Hnth Hnd 1%nat "PART-2-1" eq_refl)
      as (nodes_num & od & Hnodes & Hlook & _ & _ & Hod).
    injection Hnodes as <-. rewrite Hod in Hlook; [exact Hlook|].
    apply (bool_decide_unpack _). by vm_compute.
  - apply (mesh_extract_set_nodes_spec (St := Demo.state)
             (Handle Demo.beam) "LOADED" Demo.w0 Demo.w0 Demo.beam eq_refl).
    intros Hin%list_elem_of_In. vm_compute in Hin. intuition discriminate.
Defined.

(** Renaming ["Set-1"] to ["Load"]: with [model1] and [model3] the function
    returns and both models have the new name; with [model2] between them,
    where ["Load"] is taken, the host's exception is the outcome, after the
    calls for [model1] and [model2]. *)
Lemma models_modify_set_name_witness :
  (models_modify_set_name "Set-1" "Load" (mkWorld Demo.h_two_models [])).1 = Ok tt
  ∧ Demo.model_sets
      (host (models_modify_set_name "Set-1" "Load" (mkWorld Demo.h_two_models [])).2) =
      [(Demo.model1, ["Load"; "Set-2"]); (Demo.model3, ["Load"])]
  ∧ (models_modify_set_name "Set-1" "Load" Demo.w0).1 =
      Raise (AbaqusException "the name is already in use")
  ∧ log (models_modify_set_name "Set-1" "Load" Demo.w0).2 =
      [CallChangeKey Demo.model1 "Set-1" "Load";
       CallChangeKey Demo.model2 "Set-1" "Load"].
Proof.
  destruct (models_modify_set_name_spec (St := Demo.state) "Set-1" "Load"
              (mkWorld Demo.h_two_models [])) as (Hreturns & _).
  destruct (models_modify_set_name_spec (St := Demo.state) "Set-1" "Load" Demo.w0)
    as (_ & Hraises).
  erewrite Hreturns.
  2:{ eapply changeKey_returns_cons; [reflexivity|].
      eapply changeKey_returns_cons; [reflexivity|].
      apply changeKey_returns_nil. }
  split; [reflexivity|]. split; [reflexivity|].
  erewrite (Hraises [("Model-1", Demo.model1)] "Model-2" Demo.model2
              [("Model-3", Demo.model3)]).
  - split; reflexivity.
  - reflexivity.
  - eapply changeKey_returns_cons; [reflexivity|].
    apply changeKey_returns_nil.
  - reflexivity.
Defined.

(** A rename that the host's name check disallows is not passed over.  In
    [model2] the name ["Load"] is taken and the host refuses the rename with
    an exception: the function ends with that exception instead of
    returning, [model2] is left as it was, and [model3], in which the rename
    is possible, is not processed. *)
Lemma models_modify_set_name_collision_stops :
  let run := models_modify_set_name "Set-1" "Load" Demo.w0 in
  mdb_models_items (host Demo.w0) =
    [("Model-1", Demo.model1); ("Model-2", Demo.model2); ("Model-3", Demo.model3)]
  ∧ sets_changeKey Demo.h0 Demo.model2 "Set-1" "Load" =
      (Raise (AbaqusException "the name is already in use"), Demo.h0)
  ∧ (sets_changeKey Demo.h0 Demo.model3 "Set-1" "Load").1 = Ok tt
  ∧ run.1 = Raise (AbaqusException "the name is already in use")
  ∧ run.1 ≠ Ok tt
  ∧ CallChangeKey Demo.model3 "Set-1" "Load" ∉ log run.2
  ∧ Demo.model_sets (host run.2) =
      [(Demo.model1, ["Load"; "Set-2"]);
       (Demo.model2, ["Set-1"; "Load"]);
       (Demo.model3, ["Set-1"])].
Proof.
  cbv zeta. do 4 (split; [reflexivity|]). split; [discriminate|].
  split; [|reflexivity].
  intros Hin%list_elem_of_In. vm_compute in Hin. intuition discriminate.
Qed.

(** The timing collector on [/jobs], closing afterwards: one entry per
    listed file, [beam] and [truss] opened on the way, one closing call at
    the end. *)
Lemma odbs_get_calc_time_folder_witness :
  ∃ output w',
    odbs_get_calc_time_folder "/jobs" false true true Demo.w0 = (Ok output, w')
    ∧ dom output =
        list_to_set ["/jobs/beam.odb"; "/jobs/plate.odb"; "/jobs/sub/truss.odb"]
    ∧ output !! "/jobs/beam.odb" = Some Demo.timing
    ∧ log w' =
        [CallLister "/jobs" ".odb" true true;
         CallPrint [PrInt 3; PrStr "Odb objects found"];
         CallOpenOdb "/jobs/beam.odb" false;
         CallOpenOdb "/jobs/sub/truss.odb" false;
         CallCloseAll]
    ∧ Demo.open_odbs (host w') = [].
Proof.
  edestruct (odbs_get_calc_time_folder_spec (St := Demo.state)
               "/jobs" false true true Demo.w0
               ["/jobs/beam.odb"; "/jobs/plate.odb"; "/jobs/sub/truss.odb"]
               [(Demo.beam, true, Demo.timing); (Demo.plate, false, Demo.timing);
                (Demo.truss, true, Demo.timing)]
               Demo.h0)
    as (output & Hrun & Hdom & _ & Hnth & _).
  - reflexivity.
  - eapply timings_return_cons;
      [eapply (resolves_opened _ _ _ "/jobs/beam.odb"); reflexivity
      | vm_compute; reflexivity |].
    eapply timings_return_cons;
      [eapply resolves_registered; reflexivity | vm_compute; reflexivity |].
    eapply timings_return_cons;
      [eapply (resolves_opened _ _ _ "/jobs/sub/truss.odb"); reflexivity
      | vm_compute; reflexivity |].
    apply timings_return_nil.
  - reflexivity.
  - eexists output, _. split; [exact Hrun|]. split; [exact Hdom|].
    split; [|split; reflexivity].
    assert (Hnd : NoDup ["/jobs/beam.odb"; "/jobs/plate.odb"; "/jobs/sub/truss.odb"]).
    { apply (bool_decide_unpack _). by vm_compute. }
    apply (Hnth Hnd 0%nat "/jobs/beam.odb" Demo.beam true Demo.timing eq_refl eq_refl).
Defined.

(** An exception in the middle of a batch.  The timing collector on a disk
    whose second file has a broken timing record: [beam] and [broken] were
    opened and stay open, nothing is closed, [wing] is not reached.  The
    upgrader on a disk whose second file cannot be upgraded: [beam] stays
    renamed next to its old version, the upgrade of [plate] was attempted,
    [wing] is untouched. *)
Lemma batch_exception_witness :
  (let run := odbs_get_calc_time_folder "/jobs" false false true
                (mkWorld Demo.h_broken []) in
   run.1 = Raise SyntaxError
   ∧ log run.2 =
       [CallLister "/jobs" ".odb" true false;
        CallPrint [PrInt 3; PrStr "Odb objects found"];
        CallOpenOdb "/jobs/beam.odb" false;
        CallOpenOdb "/jobs/broken.odb" false]
   ∧ repo_keys (Demo.open_odbs (host run.2)) = ["/jobs/beam.odb"; "/jobs/broken.odb"])
  ∧ (let run := odbs_upgrade_odbs_folder "/jobs" false 1 (mkWorld Demo.h_damaged []) in
     run.1 = Raise (OdbError "cannot upgrade the database")
     ∧ file_calls (log run.2) =
         [CallUpgradeOdb "/jobs/beam.odb" "/jobs/temp_odb_name.odb";
          CallRename "/jobs/beam.odb" "/jobs/beam-old.odb";
          CallRename "/jobs/temp_odb_name.odb" "/jobs/beam.odb";
          CallUpgradeOdb "/jobs/plate.odb" "/jobs/temp_odb_name.odb"]
     ∧ repo_keys (Demo.disk (host run.2)) =
         ["/jobs/plate.odb"; "/jobs/wing.odb"; "/jobs/beam-old.odb"; "/jobs/beam.odb"]).
Proof.
  destruct (batch_exception_leaves_state (St := Demo.state)) as [Htiming Hupgrade].
  split.
  - edestruct (Htiming "/jobs" false false true (mkWorld Demo.h_broken [])
                 ["/jobs/beam.odb"] "/jobs/broken.odb" ["/jobs/wing.odb"]
                 [(Demo.beam, true, Demo.timing)] Demo.h_broken)
      as (Hrun & _).
    + reflexivity.
    + eapply timings_return_cons;
        [eapply (resolves_opened _ _ _ "/jobs/beam.odb"); reflexivity
        | vm_compute; reflexivity |].
      apply timings_return_nil.
    + eapply (timing_eval_raises _ _ _ Demo.broken true SyntaxError).
      * eapply (resolves_opened _ _ _ "/jobs/broken.odb"); reflexivity.
      * vm_compute. reflexivity.
    + cbv zeta. rewrite Hrun. repeat split; reflexivity.
  - edestruct (Hupgrade "/jobs" false 1 (mkWorld Demo.h_damaged [])
                 ["/jobs/beam.odb"; "/jobs/plate.odb"; "/jobs/wing.odb"]
                 [true; true; true]
                 ["/jobs/beam.odb"] "/jobs/plate.odb" ["/jobs/wing.odb"]
                 Demo.h_damaged Demo.h_damaged)
      as (Hrun & _).
    + reflexivity.
    + repeat (eapply upgrade_answers_cons; [reflexivity|]).
      apply upgrade_answers_nil.
    + reflexivity.
    + discriminate.
    + eapply upgrades_return_cons; [reflexivity | reflexivity | reflexivity |].
      apply upgrades_return_nil.
    + eapply (upgrade_raises _ _ _ _ (OdbError "cannot upgrade the database")).
      reflexivity.
    + cbv zeta. rewrite Hrun. repeat split; reflexivity.
Defined.

(** ** The built-ins on small inputs *)

Example py_slice_short :
  py_slice 1 (-1) "(ab)" = "ab" ∧ py_slice 1 (-1) "()" = "" ∧ py_slice 1 (-1) "x" = "".
Proof. by vm_compute. Qed.

Example str_replace_left_to_right :
  str_replace "aaa" "aa" "b" = "ba" ∧ str_replace "abc" "" "-" = "-a-b-c-".
Proof. by vm_compute. Qed.

Example sorted_str_order : sorted ["b"; "a"; "B"; "ab"] = ["B"; "a"; "ab"; "b"].
Proof. by vm_compute. Qed.

Example py_getitem_negative :
  py_getitem ["a"; "b"; "c"] (-1) = Ok "c" ∧ py_getitem ["a"; "b"; "c"] 3 = Raise IndexError.
Proof. by vm_compute. Qed.

Example divmod_floor : divmod 1 (-2) = Ok (-1, -1) ∧ divmod 0 0 = Raise ZeroDivisionError.
Proof. by vm_compute. Qed.

Example OrderedDict_of_repeated_key :
  OrderedDict_of [(1, "a"); (2, "b"); (1, "c")] = [(1, "c"); (2, "b")].
Proof. by vm_compute. Qed.

(** ** The small host on the edges of its calls *)

Example literal_eval_displays :
  Demo.literal_eval "" = Raise SyntaxError
  ∧ Demo.literal_eval "{}" = Ok (PyDict [])
  ∧ Demo.literal_eval "{'cpu': 1e-05, 'wall': 2.50}" =
      Ok (PyDict [(PyStr "cpu", PyFloat (Qmake 1 100000));
                  (PyStr "wall", PyFloat (Qmake 5 2))])
  ∧ Demo.literal_eval "{'a': 1, 'b': 2, 'a': -3}" =
      Ok (PyDict [(PyStr "a", PyInt (-3)); (PyStr "b", PyInt 2)]).
Proof. by vm_compute. Qed.

Example path_splitext_leading_dots :
  Demo.path_splitext "..odb" = ("..odb", "")
  ∧ Demo.path_splitext "/jobs/.hidden" = ("/jobs/.hidden", "")
  ∧ Demo.path_splitext "/jobs.d/beam" = ("/jobs.d/beam", "")
  ∧ Demo.path_splitext "/jobs/beam.v2.odb" = ("/jobs/beam.v2", ".odb").
Proof. by vm_compute. Qed.

Example rename_needs_the_directory :
  Demo.rename Demo.h0 "/jobs/beam.odb" "/old/beam.odb" =
    (Raise (OSError "No such file or directory"), Demo.h0)
  ∧ (Demo.rename Demo.h0 "/jobs/beam.odb" "/jobs/sub/beam.odb").1 = Ok tt
  ∧ Demo.rename Demo.h0 "/jobs/none.odb" "/jobs/beam.odb" =
      (Raise (OSError "No such file or directory"), Demo.h0).
Proof. by vm_compute. Qed.

Example upgrade_print_every_zero_demo :
  (odbs_upgrade_odbs_folder "/jobs" true 0 Demo.w0).1 = Raise ZeroDivisionError
  ∧ file_calls (log (odbs_upgrade_odbs_folder "/jobs" true 0 Demo.w0).2) = [].
Proof. by vm_compute. Qed.

(** * Further properties of the module *)

(** ** Indexing the sorted names *)

Lemma py_getitem_out_of_range {A} (l : list A) (i : Z) :
  i < - len l ∨ len l ≤ i → py_getitem l i = Raise IndexError.
Proof.
  intros Hi. unfold py_getitem, len in *.
  destruct (i <? 0) eqn:Hneg.
  - replace ((i + Z.of_nat (length l) <? 0) || _) with true; [done|].
    symmetry. apply orb_true_intro. lia.
  - replace ((i <? 0) || (Z.of_nat (length l) <=? i)) with true; [done|].
    symmetry. apply orb_true_intro. lia.
Qed.

Lemma py_getitem_from_end {A} (l : list A) (i : Z) :
  - len l ≤ i < 0 → py_getitem l i = py_getitem l (i + len l).
Proof.
  intros Hi. unfold py_getitem, len in *.
  replace (i <? 0) with true by lia.
  assert (Hlow : (i + Z.of_nat (length l) <? 0) = false) by lia.
  cbv zeta. by rewrite !Hlow.
Qed.

Lemma py_getitem_Ok {A} (l : list A) (i : Z) (x : A) :
  py_getitem l i = Ok x →
  ∃ j : nat, l !! j = Some x
             ∧ Z.of_nat j = (if i <? 0 then i + len l else i).
Proof.
  unfold py_getitem.
  set (j := if i <? 0 then i + len l else i).
  destruct ((j <? 0) || (len l <=? j)) eqn:Hout; [done|].
  apply orb_false_elim in Hout as [Hlo Hhi].
  destruct (l !! Z.to_nat j) as [y|] eqn:Hy; [|done].
  intros [= ->]. exists (Z.to_nat j). split; [done | lia].
Qed.

Lemma len_sorted (names : list string) : len (sorted names) = len names.
Proof. unfold len. by rewrite (Permutation_length (sorted_Permutation names)). Qed.

Lemma StronglySorted_lookup_le (l : list string) (i j : nat) (a b : string) :
  StronglySorted str_le l → (i ≤ j)%nat →
  l !! i = Some a → l !! j = Some b → str_le a b.
Proof.
  intros Hsorted. revert i j.
  induction Hsorted as [|x l Hsorted IH Hall]; intros i j Hij Hi Hj; [done|].
  destruct i as [|i], j as [|j]; simpl in *; try lia.
  - assert (a = b) as -> by congruence.
    destruct (str_le_total b b) as [?|?]; done.
  - assert (x = a) as -> by congruence. rewrite Forall_forall in Hall.
    apply Hall. by eapply list_elem_of_lookup_2.
  - apply (IH i j); [lia | done | done].
Qed.

Section extra.
Context {St : Type} `{Host St}.

(** X1. An index outside [-len .. len - 1] makes both lookups raise
    [IndexError], and nothing is printed, even under [show_all].  The lookup
    of a result database leaves the world as it was.  The lookup of a node
    set leaves the world as the normalizer left it: as it was for a handle,
    and for a path the normalizer had to open, with that file opened.  In
    particular every index fails when there is no name to choose from. *)
Theorem retrieve_index_out_of_range (number : Z) (show_all : bool) (w : World St) :
  (number < - len (session_odbs_keys (host w))
   ∨ len (session_odbs_keys (host w)) ≤ number →
   odbs_retrieve_odb_name number show_all w = (Raise IndexError, w))
  ∧ (∀ odb o w1,
       odbs_odbobject_normalizer odb w = (Ok o, w1) →
       number < - len (repo_keys (rootAssembly_nodeSets o))
       ∨ len (repo_keys (rootAssembly_nodeSets o)) ≤ number →
       odbs_retrieve_set_name odb number show_all w = (Raise IndexError, w1))
  ∧ (∀ o, odbs_odbobject_normalizer (Handle o) w = (Ok o, w)).
Proof.
  split; [|split].
  - intros Hout. unfold odbs_retrieve_odb_name, bind, read, lift. simpl.
    by rewrite py_getitem_out_of_range by (by rewrite len_sorted).
  - intros odb o w1 Hnorm Hout. unfold odbs_retrieve_set_name, bind, lift.
    rewrite Hnorm.
    by rewrite py_getitem_out_of_range by (by rewrite len_sorted).
  - done.
Qed.

(** X2. A negative index counts from the end of the sorted names: for
    [-len <= number < 0] both lookups behave exactly as for
    [number + len]. *)
Theorem retrieve_index_from_end (number : Z) (show_all : bool) (w : World St) :
  (- len (session_odbs_keys (host w)) ≤ number < 0 →
   odbs_retrieve_odb_name number show_all w =
     odbs_retrieve_odb_name (number + len (session_odbs_keys (host w))) show_all w)
  ∧ (∀ o, - len (repo_keys (rootAssembly_nodeSets o)) ≤ number < 0 →
          odbs_retrieve_set_name (Handle o) number show_all w =
            odbs_retrieve_set_name (Handle o)
              (number + len (repo_keys (rootAssembly_nodeSets o))) show_all w).
Proof.
  split.
  - intros Hneg. unfold odbs_retrieve_odb_name, bind, read, lift. simpl.
    rewrite py_getitem_from_end by (by rewrite len_sorted).
    by rewrite len_sorted.
  - intros o Hneg. unfold odbs_retrieve_set_name, bind, lift. simpl.
    rewrite py_getitem_from_end by (by rewrite len_sorted).
    by rewrite len_sorted.
Qed.

(** X3. The indices [0 .. len - 1] enumerate the names of the open result
    databases in non-decreasing [str] order: a key returned is one of the
    host's names, a larger index never gives a smaller key, and every name
    is returned for some index. *)
Theorem retrieve_odb_name_enumerates (show_all : bool) (w : World St) :
  (∀ number key, (odbs_retrieve_odb_name number show_all w).1 = Ok key →
     key ∈ session_odbs_keys (host w))
  ∧ (∀ i j a b, 0 ≤ i ≤ j →
       (odbs_retrieve_odb_name i show_all w).1 = Ok a →
       (odbs_retrieve_odb_name j show_all w).1 = Ok b →
       str_le a b)
  ∧ (∀ key, key ∈ session_odbs_keys (host w) →
       ∃ number, 0 ≤ number < len (session_odbs_keys (host w))
                 ∧ (odbs_retrieve_odb_name number show_all w).1 = Ok key).
Proof.
  split; [|split].
  - intros number key. rewrite retrieve_odb_name_result.
    intros (j & Hj & _)%py_getitem_Ok.
    rewrite <- (sorted_Permutation (session_odbs_keys (host w))).
    by eapply list_elem_of_lookup_2.
  - intros i j a b Hij. rewrite !retrieve_odb_name_result.
    intros (i' & Hi' & Hi)%py_getitem_Ok (j' & Hj' & Hj)%py_getitem_Ok.
    replace (i <? 0) with false in Hi by lia.
    replace (j <? 0) with false in Hj by lia.
    eapply (StronglySorted_lookup_le _ i' j');
      [apply sorted_StronglySorted | lia | exact Hi' | exact Hj'].
  - intros key Hkey.
    rewrite <- (sorted_Permutation (session_odbs_keys (host w))) in Hkey.
    apply list_elem_of_lookup_1 in Hkey as [i Hi].
    pose proof (lookup_lt_Some _ _ _ Hi) as Hlt.
    exists (Z.of_nat i). rewrite <- len_sorted. unfold len at 1.
    split; [lia|]. rewrite retrieve_odb_name_result.
    destruct (py_getitem_in_range (sorted (session_odbs_keys (host w))) (Z.of_nat i))
      as (x & Hx & ->); [unfold len; lia|].
    rewrite Nat2Z.id in Hx. congruence.
Qed.

(** ** The upgrader at its edges *)

Lemma bind_ext {A B} (m : M St A) (k1 k2 : A → M St B) (w : World St) :
  (∀ a w', k1 a w' = k2 a w') → bind m k1 w = bind m k2 w.
Proof. intros Hk. unfold bind. destruct (m w) as [[a|e] w']; [apply Hk | done]. Qed.

Lemma for_each_ext {A} (l : list A) (body1 body2 : A → M St unit) (w : World St) :
  (∀ x w', body1 x w' = body2 x w') → for_each l body1 w = for_each l body2 w.
Proof.
  intros Hbody. revert w. induction l as [|x l IH]; intros w; [done|].
  cbn [for_each]. unfold bind. rewrite Hbody.
  destruct (body2 x w) as [[[]|e] w']; [apply IH | done].
Qed.

Lemma mod_opp_eqb (a b : Z) : (a mod - b =? 0) = (a mod b =? 0).
Proof.
  destruct (decide (b = 0)) as [->|Hb]; [done|].
  destruct (decide (a mod b = 0)) as [Hz|Hnz].
  - rewrite Hz, (Z.mod_opp_r_z a b Hb Hz). done.
  - rewrite (Z.mod_opp_r_nz a b Hb Hnz).
    pose proof (Z.mod_bound_or a b Hb). lia.
Qed.

Lemma upgrade_body_opp (temp_name : string) (print_every n : Z)
    (item : Z * string) (w : World St) :
  upgrade_body temp_name (- print_every) n item w =
  upgrade_body temp_name print_every n item w.
Proof.
  destruct item as [job_number job_key]. unfold upgrade_body, bind, lift, divmod.
  replace (- print_every =? 0) with (print_every =? 0) by lia.
  destruct (print_every =? 0); [done|]. cbn [snd].
  by rewrite mod_opp_eqb.
Qed.

(** The queries up to the first one that raises. *)
Lemma comprehension_if_raises (done rest : list string) (path : string)
    (verdicts : list bool) (h h1 h2 : St) (e : exn) (calls : list Call) :
  upgrade_answers h done verdicts h1 →
  odbAccess_isUpgradeRequiredForOdb h1 path = (Raise e, h2) →
  comprehension_if (done ++ path :: rest) isUpgradeRequiredForOdb (mkWorld h calls) =
    (Raise e, mkWorld h2 (calls ++ map CallIsUpgradeRequired (done ++ [path]))).
Proof.
  intros Hrun Hraise. revert calls.
  induction Hrun as [h|h h1 h1' p b paths verdicts Hcall _ IH]; intros calls.
  - simpl. unfold bind, isUpgradeRequiredForOdb, call. simpl. by rewrite Hraise.
  - simpl. unfold bind at 1, isUpgradeRequiredForOdb at 1, call. simpl.
    rewrite Hcall. unfold bind at 1. rewrite IH by done.
    by rewrite <- app_assoc.
Qed.

(** X4. The sign of [print_every] does not matter: the upgrader run with
    [- print_every] has the same outcome, the same host state and the same
    log, progress lines included. *)
Theorem upgrade_print_every_sign (odbs_folder : string) (recursive : bool)
    (print_every : Z) (w : World St) :
  odbs_upgrade_odbs_folder odbs_folder recursive (- print_every) w =
  odbs_upgrade_odbs_folder odbs_folder recursive print_every w.
Proof.
  unfold odbs_upgrade_odbs_folder.
  apply bind_ext. intros odb_list w1.
  apply bind_ext. intros upgradable w2.
  apply bind_ext. intros _ w3.
  unfold bind, upgrade_loop.
  by rewrite (for_each_ext _ _ _ _ (upgrade_body_opp _ print_every _)).
Qed.

(** X5. When no listed file requires an upgrade (or none is listed), the
    upgrader returns for every [print_every], zero included: it has printed
    the summary and the final line and touched no file. *)
Theorem upgrade_nothing_to_upgrade (odbs_folder : string) (recursive : bool)
    (print_every : Z) (w : World St) (odb_list : list string)
    (verdicts : list bool) (h1 h2 : St) :
  host_files_with_extension_lister (host w) odbs_folder ".odb" true recursive
    = (Ok odb_list, h1) →
  upgrade_answers h1 odb_list verdicts h2 →
  kept odb_list verdicts = [] →
  odbs_upgrade_odbs_folder odbs_folder recursive print_every w =
    (Ok tt,
     mkWorld h2 (log w ++ upgrade_prologue odbs_folder recursive odb_list []
                 ++ [CallPrint [PrStr "DONE"]])).
Proof.
  intros Hlist Hanswers Hnone.
  rewrite (odbs_upgrade_odbs_folder_unfold _ _ _ _ _ _ _ _ Hlist Hanswers).
  cbn zeta. rewrite Hnone. unfold upgrade_loop. simpl.
  by rewrite <- app_assoc.
Qed.

(** X6. The files are queried before any is touched, and a failing query
    ends the function: when [isUpgradeRequiredForOdb] raises for a listed
    file, the upgrader raises that exception; it has issued the listing and
    the queries up to that file and nothing else, so no file was upgraded or
    renamed and the files after it were not even queried. *)
Theorem upgrade_query_failure (odbs_folder : string) (recursive : bool)
    (print_every : Z) (w : World St) (done rest : list string) (path : string)
    (verdicts : list bool) (h1 h2 h3 : St) (e : exn) :
  host_files_with_extension_lister (host w) odbs_folder ".odb" true recursive
    = (Ok (done ++ path :: rest), h1) →
  upgrade_answers h1 done verdicts h2 →
  odbAccess_isUpgradeRequiredForOdb h2 path = (Raise e, h3) →
  odbs_upgrade_odbs_folder odbs_folder recursive print_every w =
    (Raise e,
     mkWorld h3 (log w ++ CallLister odbs_folder ".odb" true recursive
                          :: map CallIsUpgradeRequired (done ++ [path]))).
Proof.
  intros Hlist Hanswers Hraise.
  unfold odbs_upgrade_odbs_folder, bind at 1, files_with_extension_lister, call.
  rewrite Hlist. unfold bind at 1. cbn [host log].
  rewrite (comprehension_if_raises _ _ _ _ _ _ _ _ _ Hanswers Hraise).
  by rewrite <- app_assoc.
Qed.

(** X7. A listing that raises ends either batch function at once: the
    exception propagates, the listing is the only call issued, and the
    collector does not close the open handles even when [close_odbs] is
    set. *)
Theorem batch_listing_failure (odbs_folder : string) (recursive : bool)
    (w : World St) (h1 : St) (e : exn) :
  host_files_with_extension_lister (host w) odbs_folder ".odb" true recursive
    = (Raise e, h1) →
  (∀ show close_odbs,
     odbs_get_calc_time_folder odbs_folder show recursive close_odbs w =
       (Raise e, mkWorld h1 (log w ++ [CallLister odbs_folder ".odb" true recursive])))
  ∧ (∀ print_every,
       odbs_upgrade_odbs_folder odbs_folder recursive print_every w =
         (Raise e, mkWorld h1 (log w ++ [CallLister odbs_folder ".odb" true recursive]))).
Proof.
  intros Hlist. split.
  - intros show close_odbs.
    unfold odbs_get_calc_time_folder, bind at 1, files_with_extension_lister, call.
    by rewrite Hlist.
  - intros print_every.
    unfold odbs_upgrade_odbs_folder, bind at 1, files_with_extension_lister, call.
    by rewrite Hlist.
Qed.

End extra.

(** ** The old-file name, in general *)

Lemma append_assoc (a b c : string) : (a +:+ b) +:+ c = a +:+ (b +:+ c).
Proof.
  induction a as [|x a IH]; [done|].
  change (String x ((a +:+ b) +:+ c) = String x (a +:+ (b +:+ c))). by rewrite IH.
Qed.

Lemma prefix_true_append (p s : string) :
  String.prefix p s = true → ∃ t, s = p +:+ t.
Proof.
  revert s. induction p as [|x p IH]; intros s Hpre.
  - by exists s.
  - destruct s as [|y s]; [done|]. cbn [String.prefix] in Hpre.
    destruct (Ascii.ascii_dec x y) as [->|]; [|done].
    destruct (IH s Hpre) as [t ->]. by exists t.
Qed.

(** The three characters after the dot start no occurrence. *)
Lemma count_occurrences_odb_head (t : string) :
  count_occurrences ".odb" (".odb" +:+ t) = S (count_occurrences ".odb" t).
Proof.
  change (".odb" +:+ t) with (String "." (String "o" (String "d" (String "b" t)))).
  cbn [count_occurrences String.prefix].
  repeat match goal with
         | |- context [Ascii.ascii_dec ?x ?y] =>
             destruct (Ascii.ascii_dec x y) as [?|?]; try discriminate; try done
         end.
  by destruct t.
Qed.

Lemma old_name_of_head (t : string) :
  old_name_of (".odb" +:+ t) = "-old.odb" +:+ old_name_of t.
Proof. unfold old_name_of, str_replace. by apply replace_from_head. Qed.

Lemma old_name_of_other (c : Ascii.ascii) (s : string) :
  String.prefix ".odb" (String c s) = false →
  old_name_of (String c s) = String c (old_name_of s).
Proof.
  intros Hpre. unfold old_name_of, str_replace. cbn [replace_from]. by rewrite Hpre.
Qed.

Lemma old_name_of_length_bounded (n : nat) (s : string) :
  (String.length s ≤ n)%nat →
  String.length (old_name_of s) =
    (String.length s + 4 * count_occurrences ".odb" s)%nat.
Proof.
  revert s. induction n as [|n IH]; intros s Hn.
  { destruct s; [done | simpl in Hn; lia]. }
  destruct s as [|c s]; [done|].
  destruct (String.prefix ".odb" (String c s)) eqn:Hpre.
  - destruct (prefix_true_append _ _ Hpre) as [t Ht]. rewrite Ht in *.
    rewrite old_name_of_head, count_occurrences_odb_head, !length_append.
    rewrite IH; [simpl; lia|]. rewrite length_append in Hn. simpl in Hn. lia.
  - rewrite old_name_of_other by done. cbn [count_occurrences]. rewrite Hpre.
    cbn [String.length]. rewrite IH; [lia|]. simpl in Hn. lia.
Qed.

Lemma old_name_of_no_occurrence (s : string) :
  count_occurrences ".odb" s = 0%nat → old_name_of s = s.
Proof.
  induction s as [|c s IH]; [done|]. cbn [count_occurrences].
  destruct (String.prefix ".odb" (String c s)) eqn:Hpre; [done|].
  intros Hcount. rewrite old_name_of_other by done. rewrite IH; [done | lia].
Qed.

(** X8. The old name is four characters longer than the path for every
    occurrence of ['.odb'] in it.  So the old name is the path itself
    exactly when the path has no ['.odb'] at all: only then does the first
    rename of the upgrader map a file onto itself. *)
Theorem old_name_of_length (job_key : string) :
  String.length (old_name_of job_key) =
    (String.length job_key + 4 * count_occurrences ".odb" job_key)%nat
  ∧ (old_name_of job_key = job_key ↔ count_occurrences ".odb" job_key = 0%nat).
Proof.
  assert (Hlen := old_name_of_length_bounded (String.length job_key) job_key
                    (Nat.le_refl _)).
  split; [done|]. split.
  - intros Heq. rewrite Heq in Hlen. lia.
  - apply old_name_of_no_occurrence.
Qed.

Lemma append_cons (c : Ascii.ascii) (a t : string) :
  String c a +:+ t = String c (a +:+ t).
Proof. reflexivity. Qed.

Lemma append_nil (t : string) : EmptyString +:+ t = t.
Proof. reflexivity. Qed.

(** One character of a [String.prefix] test against a known pattern. *)
Ltac prefix_step :=
  rewrite ?append_cons, ?append_nil; cbn [String.prefix];
  match goal with
  | |- context [Ascii.ascii_dec ?x ?y] =>
      destruct (Ascii.ascii_dec x y) as [?|?]; try discriminate; try done
  end.

(** A short string that does not start with ['.odb'] still does not once an
    occurrence follows it. *)
Lemma prefix_odb_before_occurrence (a b : string) :
  a ≠ EmptyString →
  String.prefix ".odb" a = false →
  String.prefix ".odb" (a +:+ ".odb" +:+ b) = false.
Proof.
  intros Hne. destruct a as [|c1 a]; [done|]. clear Hne.
  prefix_step. destruct a as [|c2 a]; [by repeat prefix_step|].
  prefix_step. destruct a as [|c3 a]; [by repeat prefix_step|].
  prefix_step. destruct a as [|c4 a]; [by repeat prefix_step|].
  prefix_step. by destruct a.
Qed.

Lemma old_name_of_at_occurrence_bounded (n : nat) (a b : string) :
  (String.length a ≤ n)%nat →
  old_name_of (a +:+ ".odb" +:+ b) = old_name_of a +:+ "-old.odb" +:+ old_name_of b.
Proof.
  revert a. induction n as [|n IH]; intros a Hn.
  { destruct a; [|simpl in Hn; lia]. apply old_name_of_head. }
  destruct a as [|c a]; [apply old_name_of_head|].
  destruct (String.prefix ".odb" (String c a)) eqn:Hpre.
  - destruct (prefix_true_append _ _ Hpre) as [t Ht]. rewrite Ht in *.
    rewrite append_assoc, !old_name_of_head, IH, append_assoc; [done|].
    rewrite length_append in Hn. simpl in Hn. lia.
  - rewrite old_name_of_other by done.
    change (String c a +:+ ".odb" +:+ b) with (String c (a +:+ ".odb" +:+ b)).
    rewrite old_name_of_other.
    + rewrite IH by (simpl in Hn; lia). done.
    + change (String c (a +:+ ".odb" +:+ b)) with (String c a +:+ ".odb" +:+ b).
      by apply prefix_odb_before_occurrence.
Qed.

(** X9. The old name is computed piecewise around every occurrence: for all
    [a] and [b], the old name of [a + '.odb' + b] is the old name of [a],
    then ['-old.odb'], then the old name of [b].  In particular the final
    extension of a result file is always rewritten, whatever '.odb' the
    directories before it contain. *)
Theorem old_name_of_at_occurrence (a b : string) :
  old_name_of (a +:+ ".odb" +:+ b) = old_name_of a +:+ "-old.odb" +:+ old_name_of b.
Proof. by apply (old_name_of_at_occurrence_bounded (String.length a)). Qed.

(** ** Resolving a path twice *)

Section extra_handles.
Context {St : Type} `{Host St}.

(** X10. On a host that registers the result databases it opens,
    normalizing is idempotent: once a path has been resolved, resolving the
    same path again, or the handle obtained, returns the same handle and
    issues no call; a file is opened at most once. *)
Theorem normalizer_twice (path : string) (w w1 : World St) (o : Odb) :
  (∀ h p o' h1, session_openOdb h p false = (Ok o', h1) →
                session_odbs_getitem h1 p = Ok o') →
  odbs_odbobject_normalizer (Path path) w = (Ok o, w1) →
  odbs_odbobject_normalizer (Path path) w1 = (Ok o, w1)
  ∧ odbs_odbobject_normalizer (Handle o) w1 = (Ok o, w1).
Proof.
  intros Hregisters Hfirst. split; [|done].
  unfold odbs_odbobject_normalizer, try_except, read_result in *.
  destruct (session_odbs_getitem (host w) path) as [o0|e] eqn:Hget.
  - injection Hfirst as -> ->. by rewrite Hget.
  - destruct e; try done. unfold openOdb, call in Hfirst.
    destruct (session_openOdb (host w) path false) as [r h1] eqn:Hopen.
    injection Hfirst as -> <-. cbn [host].
    by rewrite (Hregisters _ _ _ _ Hopen).
Qed.

(** ** The timing extractor and collector at their edges *)

Lemma py_slice_at_most_two (s : string) :
  (String.length s ≤ 2)%nat → py_slice 1 (-1) s = EmptyString.
Proof.
  destruct s as [|a [|b [|c s]]]; simpl; intros Hlen; try done. lia.
Qed.

(** X11. On a handle the timing extractor never changes the host state, and
    its result depends neither on [show] nor on the world.  The line under
    [show] is printed only after the evaluation succeeded: when it raises,
    the world is left as it was.  A timing string of at most two characters
    leaves the empty string to evaluate. *)
Theorem odbs_get_calc_time_effects (o : Odb) (show : bool) (w : World St) :
  host (odbs_get_calc_time (Handle o) show w).2 = host w
  ∧ (∀ show' (w' : World St),
       (odbs_get_calc_time (Handle o) show' w').1 =
       (odbs_get_calc_time (Handle o) show w).1)
  ∧ (∀ e, (odbs_get_calc_time (Handle o) show w).1 = Raise e →
          (odbs_get_calc_time (Handle o) show w).2 = w)
  ∧ (show = false → (odbs_get_calc_time (Handle o) show w).2 = w)
  ∧ ((String.length (JobTime_str (diagnosticData_jobTime o)) ≤ 2)%nat →
     (odbs_get_calc_time (Handle o) show w).1 = ast_literal_eval "").
Proof.
  repeat split.
  - rewrite odbs_get_calc_time_Handle. cbn zeta.
    destruct (ast_literal_eval _); [by destruct show | done].
  - intros show' w'. rewrite !odbs_get_calc_time_Handle. cbn zeta.
    by destruct (ast_literal_eval _).
  - intros e. rewrite odbs_get_calc_time_Handle. cbn zeta.
    by destruct (ast_literal_eval _).
  - intros ->. rewrite odbs_get_calc_time_Handle. cbn zeta.
    by destruct (ast_literal_eval _).
  - intros Hshort. rewrite odbs_get_calc_time_Handle. cbn zeta.
    rewrite py_slice_at_most_two by done. by destruct (ast_literal_eval _).
Qed.

(** X12. With no ['.odb'] file listed, the collector returns the empty dict
    and opens nothing; with [close_odbs] set it still issues the closing
    call, which closes the handles that were open before. *)
Theorem calc_time_folder_empty (odbs_folder : string) (show recursive : bool)
    (w : World St) (h1 : St) :
  host_files_with_extension_lister (host w) odbs_folder ".odb" true recursive
    = (Ok [], h1) →
  odbs_get_calc_time_folder odbs_folder show recursive false w =
    (Ok ∅, mkWorld h1 (log w ++ timing_prologue odbs_folder recursive []))
  ∧ odbs_get_calc_time_folder odbs_folder show recursive true w =
      ((match (host_odbs_close_all_odbs h1).1 with
        | Ok _ => Ok ∅
        | Raise e => Raise e
        end),
       mkWorld (host_odbs_close_all_odbs h1).2
         (log w ++ timing_prologue odbs_folder recursive [] ++ [CallCloseAll])).
Proof.
  intros Hlist.
  rewrite !(odbs_get_calc_time_folder_unfold _ _ _ _ _ _ _ Hlist).
  unfold calc_time_loop. simpl. split; [done|].
  destruct (host_odbs_close_all_odbs h1) as [[[]|e] h2]; simpl;
    by rewrite <- app_assoc.
Qed.

Lemma is_print_or_open_of_cons (path : string) (paths : list string) (c : Call) :
  is_print_or_open_of paths c → is_print_or_open_of (path :: paths) c.
Proof.
  destruct c; simpl; try done. intros [Hin ->]. split; [|done].
  by apply list_elem_of_further.
Qed.

(** Whatever its outcome, the timing loop prints and opens listed files
    read-write, at most one per pass. *)
Lemma calc_time_loop_calls (paths : list string) (show : bool)
    (output : gmap string pyval) (w : World St) :
  ∃ new, log (calc_time_loop paths show output w).2 = log w ++ new
         ∧ Forall (is_print_or_open_of paths) new
         ∧ (length (List.filter is_open_call new) ≤ length paths)%nat.
Proof.
  unfold calc_time_loop. revert output w.
  induction paths as [|path paths IH]; intros output w.
  { exists []. by rewrite app_nil_r. }
  cbn [for_fold]. unfold bind at 1. unfold bind at 1.
  assert (Hnorm : ∃ new1,
            log (odbs_odbobject_normalizer (Path path) w).2 = log w ++ new1
            ∧ (new1 = [] ∨ new1 = [CallOpenOdb path false])).
  { unfold odbs_odbobject_normalizer, try_except, read_result.
    destruct (session_odbs_getitem (host w) path) as [o|e].
    { exists []. by rewrite app_nil_r; auto. }
    destruct e; try (exists []; rewrite app_nil_r; by auto).
    unfold openOdb, call. destruct (session_openOdb (host w) path false) as [r h1].
    exists [CallOpenOdb path false]. auto. }
  destruct Hnorm as (new1 & Hlog1 & Hnew1).
  assert (Hall1 : Forall (is_print_or_open_of (path :: paths)) new1
                  ∧ (length (List.filter is_open_call new1) ≤ 1)%nat).
  { destruct Hnew1 as [->| ->]; split; simpl; try lia; [constructor|].
    constructor; [|constructor]. split; [apply list_elem_of_here | done]. }
  destruct Hall1 as [Hall1 Hcount1].
  destruct (odbs_odbobject_normalizer (Path path) w) as [[o|e] w1]; cbn [snd] in *.
  2:{ exists new1. split; [done|]. split; [done|]. simpl. lia. }
  unfold bind at 1.
  assert (Htime : ∃ new2,
            log (odbs_get_calc_time (Handle o) show w1).2 = log w1 ++ new2
            ∧ Forall (is_print_or_open_of (path :: paths)) new2
            ∧ List.filter is_open_call new2 = []).
  { rewrite odbs_get_calc_time_Handle. cbn zeta.
    destruct (ast_literal_eval _); [|exists []; rewrite app_nil_r; by auto].
    destruct show; [|exists []; rewrite app_nil_r; by auto].
    eexists [_]. split; [done|]. split; [|done]. by repeat constructor. }
  destruct Htime as (new2 & Hlog2 & Hall2 & Hcount2).
  destruct (odbs_get_calc_time (Handle o) show w1) as [[t|e] w2]; cbn [snd] in *.
  - unfold ret at 1.
    destruct (IH (<[path := t]> output) w2) as (new3 & Hlog3 & Hall3 & Hcount3).
    exists (new1 ++ new2 ++ new3). rewrite Hlog3, Hlog2, Hlog1, <- !app_assoc.
    split; [done|]. split.
    + rewrite !Forall_app. split; [done|]. split; [done|].
      eapply Forall_impl; [exact Hall3|]. apply is_print_or_open_of_cons.
    + rewrite !List.filter_app, !length_app, Hcount2. simpl. lia.
  - exists (new1 ++ new2). rewrite Hlog2, Hlog1, <- !app_assoc.
    split; [done|]. split; [by rewrite Forall_app|].
    rewrite List.filter_app, length_app, Hcount2. simpl. lia.
Qed.

(** X13. Whatever the host does after the listing, the collector only
    prints and opens files: every file it opens is a listed path, opened
    read-write, there are at most as many open calls as listed paths, and
    the only other call is the closing one, at the very end and only when
    [close_odbs] is set. *)
Theorem calc_time_folder_calls (odbs_folder : string)
    (show recursive close_odbs : bool) (w : World St) (odb_list : list string)
    (h1 : St) :
  host_files_with_extension_lister (host w) odbs_folder ".odb" true recursive
    = (Ok odb_list, h1) →
  ∃ new closing,
    log (odbs_get_calc_time_folder odbs_folder show recursive close_odbs w).2 =
      log w ++ timing_prologue odbs_folder recursive odb_list ++ new ++ closing
    ∧ Forall (is_print_or_open_of odb_list) new
    ∧ (length (List.filter is_open_call new) ≤ length odb_list)%nat
    ∧ (closing = [] ∨ (close_odbs = true ∧ closing = [CallCloseAll])).
Proof.
  intros Hlist. rewrite (odbs_get_calc_time_folder_unfold _ _ _ _ _ _ _ Hlist).
  destruct (calc_time_loop_calls odb_list show ∅
              (mkWorld h1 (log w ++ timing_prologue odbs_folder recursive odb_list)))
    as (new & Hlog & Hall & Hcount).
  cbn [log] in Hlog.
  destruct (calc_time_loop odb_list show ∅ _) as [[output|e] w2]; cbn [snd] in *.
  - destruct close_odbs.
    + exists new, [CallCloseAll].
      split; [|split; [done|split; [done|by right]]].
      destruct (host_odbs_close_all_odbs (host w2)) as [[[]|e] h3]; cbn [snd log];
        by rewrite Hlog, <- !app_assoc.
    + exists new, []. cbn [snd].
      split; [|split; [done|split; [done|by left]]].
      by rewrite Hlog, app_nil_r, <- app_assoc.
  - exists new, []. cbn [snd].
    split; [|split; [done|split; [done|by left]]].
    by rewrite Hlog, app_nil_r, <- app_assoc.
Qed.

End extra_handles.

(** ** The node extractor at its edges *)

Lemma instances_dict_short (node_set : OdbSet) (names : list string) (k : nat)
    (acc : gmap string (OrderedDict Z Coordinates)) :
  (k ≤ length (nodes node_set) < k + length names)%nat →
  instances_dict node_set (imap (λ i x, (Z.of_nat (k + i), x)) names) acc =
    Raise IndexError.
Proof.
  revert k acc. induction names as [|name names IH]; intros k acc Hlen.
  { simpl in Hlen. lia. }
  simpl in Hlen. rewrite imap_cons. cbn [instances_dict].
  destruct (decide (k = length (nodes node_set))) as [Heq|Hne].
  - by rewrite py_getitem_out_of_range by (unfold len; lia).
  - destruct (py_getitem_in_range (nodes node_set) (Z.of_nat (k + 0)))
      as (nodes_num & _ & ->); [unfold len; lia|].
    rewrite (imap_ext _ (λ i x, (Z.of_nat (S k + i), x)))
      by (intros i x _; simpl; do 2 f_equal; lia).
    apply IH. lia.
Qed.

(** X15. The inner mapping of an instance has exactly one entry per
    distinct node label of the sequence; when several nodes carry the same
    label, the coordinates kept are those of the last one. *)
Theorem node_labels_last_wins (nodes_num : list OdbMeshNode) :
  NoDup (OrderedDict_of (node_items nodes_num)).*1
  ∧ (∀ lbl, lbl ∈ (OrderedDict_of (node_items nodes_num)).*1 ↔
            lbl ∈ map label nodes_num)
  ∧ (∀ lbl xyz, (lbl, xyz) ∈ OrderedDict_of (node_items nodes_num) ↔
       ∃ before node after,
         nodes_num = before ++ node :: after
         ∧ label node = lbl ∧ coordinates node = xyz
         ∧ lbl ∉ map label after).
Proof.
  destruct (OrderedDict_of_last (node_items nodes_num)) as (Hnd & Hkeys & Helem).
  assert (Hlabels : ∀ l : list OdbMeshNode, (node_items l).*1 = map label l).
  { intros l. unfold node_items. by rewrite <- list_fmap_compose. }
  split; [done|]. split.
  - intros lbl. by rewrite Hkeys, Hlabels.
  - intros lbl xyz. rewrite Helem. unfold node_items. split.
    + intros (l1 & l2 & Heq & Hlast).
      apply fmap_app_inv in Heq as (before & rest & -> & Hrest & ->).
      symmetry in Hrest.
      apply fmap_cons_inv in Hrest as (node & after & Hnode & -> & ->).
      injection Hnode as -> ->.
      exists before, node, after. split; [done|]. split; [done|]. split; [done|].
      by rewrite <- Hlabels.
    + intros (before & node & after & -> & <- & <- & Hlast).
      exists (node_items before), (node_items after).
      split; [by unfold node_items; rewrite fmap_app|]. by rewrite Hlabels.
Qed.

Section extra_mesh.
Context {St : Type} `{Host St}.

(** X14. A node set with fewer node sequences than instance names makes the
    extractor raise [IndexError], in the world the normalizer left: no
    partial mapping is returned. *)
Theorem mesh_extract_set_nodes_short (odb : odb_ish) (set_name : string)
    (w w1 : World St) (o : Odb) (node_set : OdbSet) :
  odbs_odbobject_normalizer odb w = (Ok o, w1) →
  repo_getitem (rootAssembly_nodeSets o) set_name = Ok node_set →
  (length (nodes node_set) < length (instanceNames node_set))%nat →
  mesh_extract_set_nodes odb set_name w = (Raise IndexError, w1).
Proof.
  intros Hnorm Hget Hshort.
  unfold mesh_extract_set_nodes, bind, lift. rewrite Hnorm, Hget.
  unfold enumerate.
  pose proof (instances_dict_short node_set (instanceNames node_set) 0 ∅) as Hdict.
  cbn [Nat.add] in Hdict. rewrite Hdict; [done | lia].
Qed.

(** ** The set renamer, whatever the host does *)

Lemma models_loop_outcome (set_name new_set_name : string)
    (items : list (string * Model)) (w : World St) :
  let run := models_loop set_name new_set_name items w in
  ∃ n, (n ≤ length items)%nat
       ∧ log run.2 = log w ++ changeKey_calls set_name new_set_name (take n items)
       ∧ match run.1 with
         | Ok _ =>
             n = length items
             ∧ changeKey_returns set_name new_set_name (host w) items (host run.2)
         | Raise e =>
             ∃ m key model h1,
               n = S m
               ∧ items !! m = Some (key, model)
               ∧ changeKey_returns set_name new_set_name (host w) (take m items) h1
               ∧ sets_changeKey h1 model set_name new_set_name = (Raise e, host run.2)
         end.
Proof.
  cbv zeta. revert w. induction items as [|[key model] items IH]; intros w.
  { exists 0%nat. unfold models_loop. simpl. rewrite app_nil_r.
    split; [done|]. split; [done|]. split; [done|]. constructor. }
  rewrite models_loop_cons.
  destruct (sets_changeKey (host w) model set_name new_set_name) as [[[]|e] h1] eqn:Hcall.
  - destruct (IH (mkWorld h1 (log w ++ [CallChangeKey model set_name new_set_name])))
      as (n & Hn & Hlog & Hres).
    exists (S n). split; [simpl; lia|]. split.
    + rewrite Hlog. cbn [log take]. by rewrite <- app_assoc.
    + destruct (models_loop _ _ items _) as [[[]|e] w2]; cbn [fst snd host] in *.
      * destruct Hres as [-> Hrun]. split; [done|]. by econstructor.
      * destruct Hres as (m & key' & model' & h2 & -> & Hm & Hrun & Hraise).
        exists (S m), key', model', h2. split; [done|]. split; [done|].
        split; [|done]. cbn [take]. by econstructor.
  - exists 1%nat. cbn [fst snd host log]. split; [simpl; lia|]. split; [done|].
    exists 0%nat, key, model, (host w). split; [done|]. split; [done|].
    split; [constructor | done].
Qed.

(** X16. Whatever the host answers, the renamer calls [changeKey] on an
    initial segment of [mdb.models.items()], once per model and in order,
    always with the two given names.  If the function returns, the segment
    is all the models and every call returned.  If it raises, the segment
    is not empty and ends with the model whose call raised that exception,
    which may be the last model; every call before it returned.  So with
    no model the function returns at once. *)
Theorem models_modify_set_name_outcome (set_name new_set_name : string)
    (w : World St) :
  let items := mdb_models_items (host w) in
  let run := models_modify_set_name set_name new_set_name w in
  ∃ n, (n ≤ length items)%nat
       ∧ log run.2 = log w ++ changeKey_calls set_name new_set_name (take n items)
       ∧ match run.1 with
         | Ok _ =>
             n = length items
             ∧ changeKey_returns set_name new_set_name (host w) items (host run.2)
         | Raise e =>
             ∃ m key model h1,
               n = S m
               ∧ items !! m = Some (key, model)
               ∧ changeKey_returns set_name new_set_name (host w) (take m items) h1
               ∧ sets_changeKey h1 model set_name new_set_name = (Raise e, host run.2)
         end.
Proof.
  cbv zeta. unfold models_modify_set_name, bind, read.
  apply models_loop_outcome.
Qed.

End extra_mesh.

(** ** The further properties on the small host *)

Lemma Demo_repo_getitem_put {V} (repo : Repository V) (key : string) (v : V) :
  repo_getitem (Demo.repo_put repo key v) key = Ok v.
Proof.
  unfold Demo.repo_put. induction repo as [|[k x] repo IH]; simpl.
  - by rewrite String.eqb_refl.
  - destruct (String.eqb k key) eqn:Heq; [done|]. simpl. by rewrite Heq.
Qed.

Lemma Demo_openOdb_registers (h h1 : Demo.state) (path : string) (o : Odb) :
  session_openOdb h path false = (Ok o, h1) →
  session_odbs_getitem h1 path = Ok o.
Proof.
  simpl. unfold Demo.openOdb.
  destruct (repo_getitem (Demo.disk h) path) as [f|e]; [|done].
  intros [= <- <-]. simpl. apply Demo_repo_getitem_put.
Qed.

(** With [plate] alone open, the index 1 is out of range; [beam] has two
    node sets, so is -3, for the handle and for the path, which is opened
    on the way and stays open. *)
Lemma retrieve_index_out_of_range_witness :
  odbs_retrieve_odb_name 1 true Demo.w0 = (Raise IndexError, Demo.w0)
  ∧ odbs_retrieve_set_name (Handle Demo.beam) (-3) true Demo.w0 =
      (Raise IndexError, Demo.w0)
  ∧ ∃ w1, odbs_retrieve_set_name (Path "/jobs/beam.odb") (-3) true Demo.w0 =
            (Raise IndexError, w1)
          ∧ log w1 = [CallOpenOdb "/jobs/beam.odb" false]
          ∧ repo_keys (Demo.open_odbs (host w1)) =
              ["/jobs/plate.odb"; "/jobs/beam.odb"].
Proof.
  split; [|split].
  - apply (proj1 (retrieve_index_out_of_range (St := Demo.state) 1 true Demo.w0)).
    right. by vm_compute.
  - apply (proj1 (proj2 (retrieve_index_out_of_range (St := Demo.state) (-3) true
                           Demo.w0))
             (Handle Demo.beam) Demo.beam Demo.w0 eq_refl).
    left. by vm_compute.
  - pose (w1 := (odbs_odbobject_normalizer (Path "/jobs/beam.odb") Demo.w0).2).
    exists w1. split.
    + apply (proj1 (proj2 (@retrieve_index_out_of_range Demo.state Demo.host_calls
                             (-3) true Demo.w0))
               (Path "/jobs/beam.odb") Demo.beam
               w1 eq_refl).
      left. by vm_compute.
    + split; reflexivity.
Defined.

(** Index -1 is the last of the two node sets of [beam]. *)
Lemma retrieve_index_from_end_witness :
  odbs_retrieve_odb_name (-1) false Demo.w0 = odbs_retrieve_odb_name 0 false Demo.w0
  ∧ (odbs_retrieve_set_name (Handle Demo.beam) (-1) false Demo.w0).1 = Ok "FIXED".
Proof.
  split.
  - rewrite (proj1 (retrieve_index_from_end (St := Demo.state) (-1) false Demo.w0));
      [reflexivity | by vm_compute].
  - rewrite (proj2 (retrieve_index_from_end (St := Demo.state) (-1) false Demo.w0)
               Demo.beam); [reflexivity | by vm_compute].
Defined.

(** Two open result databases are reached by the indices 0 and 1, [beam]
    before [plate]. *)
Lemma retrieve_odb_name_enumerates_witness :
  let w := mkWorld (Demo.h_open [("/jobs/plate.odb", Demo.plate);
                                 ("/jobs/beam.odb", Demo.beam)]) [] in
  str_le "/jobs/beam.odb" "/jobs/plate.odb"
  ∧ "/jobs/plate.odb" ∈ session_odbs_keys (host w)
  ∧ ∃ number, 0 ≤ number < 2
              ∧ (odbs_retrieve_odb_name number false w).1 = Ok "/jobs/beam.odb".
Proof.
  intros w.
  destruct (retrieve_odb_name_enumerates (St := Demo.state) false w)
    as (Hmember & Hordered & Hreached).
  split; [|split].
  - apply (Hordered 0 1); [lia | reflexivity | reflexivity].
  - apply (Hmember 1). reflexivity.
  - apply Hreached. apply list_elem_of_In. vm_compute. tauto.
Defined.

(** [print_every = 0] on [/jobs]: [beam] requires an upgrade, so the first
    pass raises. *)
Lemma upgrade_print_every_zero_witness :
  (odbs_upgrade_odbs_folder "/jobs" true 0 Demo.w0).1 = Raise ZeroDivisionError
  ∧ file_calls (log (odbs_upgrade_odbs_folder "/jobs" true 0 Demo.w0).2) = [].
Proof.
  rewrite (upgrade_print_every_zero (St := Demo.state) "/jobs" true Demo.w0
             ["/jobs/beam.odb"; "/jobs/plate.odb"; "/jobs/sub/truss.odb"]
             [true; false; true] Demo.h0 Demo.h0).
  - split; reflexivity.
  - reflexivity.
  - repeat (eapply upgrade_answers_cons; [reflexivity|]).
    apply upgrade_answers_nil.
  - discriminate.
Defined.

(** A folder whose only result file is current, with [print_every = 0]. *)
Lemma upgrade_nothing_to_upgrade_witness :
  odbs_upgrade_odbs_folder "/jobs" true 0 (mkWorld Faulty.h_current []) =
    (Ok tt,
     mkWorld Faulty.h_current
       [CallLister "/jobs" ".odb" true true;
        CallIsUpgradeRequired "/jobs/plate.odb";
        CallPrint [PrInt 1; PrStr "Odb objects found"; PrInt 0; PrStr "require upgrade"];
        CallPrint [PrStr "DONE"]]).
Proof.
  rewrite (upgrade_nothing_to_upgrade (St := Demo.state) "/jobs" true 0
             (mkWorld Faulty.h_current []) ["/jobs/plate.odb"] [false]
             Faulty.h_current Faulty.h_current).
  - reflexivity.
  - reflexivity.
  - eapply upgrade_answers_cons; [reflexivity | apply upgrade_answers_nil].
  - reflexivity.
Defined.

(** The query on the damaged [plate] fails: [beam] was queried, [wing] was
    not, and no file was touched. *)
Lemma upgrade_query_failure_witness :
  @odbs_upgrade_odbs_folder Demo.state Faulty.calls "/jobs" false 1
    (mkWorld Demo.h_damaged []) =
    (Raise (OdbError "cannot read the database"),
     mkWorld Demo.h_damaged
       [CallLister "/jobs" ".odb" true false;
        CallIsUpgradeRequired "/jobs/beam.odb";
        CallIsUpgradeRequired "/jobs/plate.odb"]).
Proof.
  rewrite (@upgrade_query_failure Demo.state Faulty.calls "/jobs" false 1
             (mkWorld Demo.h_damaged []) ["/jobs/beam.odb"] ["/jobs/wing.odb"]
             "/jobs/plate.odb" [true] Demo.h_damaged Demo.h_damaged Demo.h_damaged
             (OdbError "cannot read the database")).
  - reflexivity.
  - reflexivity.
  - eapply upgrade_answers_cons; [reflexivity | apply upgrade_answers_nil].
  - reflexivity.
Defined.

(** A folder that cannot be listed: nothing is opened and nothing closed,
    [plate] stays open. *)
Lemma batch_listing_failure_witness :
  let run := @odbs_get_calc_time_folder Demo.state Faulty.calls "/archive"
               true false true Demo.w0 in
  run.1 = Raise (OSError "No such file or directory")
  ∧ log run.2 = [CallLister "/archive" ".odb" true false]
  ∧ repo_keys (Demo.open_odbs (host run.2)) = ["/jobs/plate.odb"].
Proof.
  intros run. unfold run.
  rewrite (proj1 (@batch_listing_failure Demo.state Faulty.calls "/archive" false
                    Demo.w0 Demo.h0 (OSError "No such file or directory") eq_refl)).
  repeat split; reflexivity.
Defined.

(** [beam] is opened by the first resolution and found by the second. *)
Lemma normalizer_twice_witness :
  ∃ w1, odbs_odbobject_normalizer (Path "/jobs/beam.odb") Demo.w0 = (Ok Demo.beam, w1)
        ∧ odbs_odbobject_normalizer (Path "/jobs/beam.odb") w1 = (Ok Demo.beam, w1)
        ∧ log w1 = [CallOpenOdb "/jobs/beam.odb" false].
Proof.
  eexists. split; [reflexivity|]. split; [|reflexivity].
  apply (normalizer_twice (St := Demo.state) "/jobs/beam.odb" Demo.w0).
  - intros h p o' h1. apply Demo_openOdb_registers.
  - reflexivity.
Defined.

(** The broken timing record: two characters, nothing to evaluate, nothing
    printed. *)
Lemma odbs_get_calc_time_effects_witness :
  odbs_get_calc_time (Handle Demo.broken) true Demo.w0 = (Raise SyntaxError, Demo.w0).
Proof.
  destruct (odbs_get_calc_time_effects (St := Demo.state) Demo.broken true Demo.w0)
    as (_ & _ & Hraise & _ & Hshort).
  assert (Hres : (odbs_get_calc_time (Handle Demo.broken) true Demo.w0).1 =
                 Raise SyntaxError).
  { rewrite Hshort; [reflexivity | by vm_compute]. }
  pose proof (Hraise _ Hres) as Hworld.
  destruct (odbs_get_calc_time (Handle Demo.broken) true Demo.w0) as [r w'].
  simpl in *. by subst.
Defined.

(** No result file under [/archive]: the closing call still closes [plate],
    which was open before. *)
Lemma calc_time_folder_empty_witness :
  let run := odbs_get_calc_time_folder "/archive" true false true Demo.w0 in
  run.1 = Ok ∅
  ∧ log run.2 = [CallLister "/archive" ".odb" true false;
                 CallPrint [PrInt 0; PrStr "Odb objects found"]; CallCloseAll]
  ∧ Demo.open_odbs (host Demo.w0) = [("/jobs/plate.odb", Demo.plate)]
  ∧ Demo.open_odbs (host run.2) = [].
Proof.
  intros run. unfold run.
  rewrite (proj2 (@calc_time_folder_empty Demo.state Demo.host_calls "/archive"
                    true false Demo.w0 Demo.h0 ltac:(vm_compute; reflexivity))).
  repeat split; reflexivity.
Defined.

(** On the disk with the broken timing record, at most three files are
    opened, all of them listed. *)
Lemma calc_time_folder_calls_witness :
  ∃ new closing,
    log (odbs_get_calc_time_folder "/jobs" false false true
           (mkWorld Demo.h_broken [])).2 =
      timing_prologue "/jobs" false
        ["/jobs/beam.odb"; "/jobs/broken.odb"; "/jobs/wing.odb"] ++ new ++ closing
    ∧ (length (List.filter is_open_call new) ≤ 3)%nat.
Proof.
  destruct (@calc_time_folder_calls Demo.state Demo.host_calls "/jobs" false false
              true (mkWorld Demo.h_broken [])
              ["/jobs/beam.odb"; "/jobs/broken.odb"; "/jobs/wing.odb"]
              Demo.h_broken ltac:(vm_compute; reflexivity))
    as (new & closing & Hlog & _ & Hcount & _).
  exists new, closing. split; [exact Hlog | exact Hcount].
Defined.

(** A node set naming two instances with the nodes of one. *)
Lemma mesh_extract_set_nodes_short_witness :
  let node_set := {| instanceNames := ["PART-1-1"; "PART-2-1"];
                     nodes := [[Demo.node 1 0 0 0]] |} in
  let o := {| name := "/jobs/odd.odb";
              diagnosticData_jobTime := Demo.job_time;
              rootAssembly_nodeSets := [("ALL_NODES", node_set)] |} in
  mesh_extract_set_nodes (Handle o) "ALL_NODES" Demo.w0 = (Raise IndexError, Demo.w0).
Proof.
  intros node_set o.
  apply (@mesh_extract_set_nodes_short Demo.state Demo.host_calls (Handle o)
           "ALL_NODES" Demo.w0 Demo.w0 o node_set eq_refl eq_refl).
  simpl. lia.
Defined.

(** Two nodes with label 1: one entry, with the coordinates of the second. *)
Lemma node_labels_last_wins_witness :
  (1, [Qmake 9 1; Qmake 0 1; Qmake 0 1]) ∈
    OrderedDict_of (node_items [Demo.node 1 0 0 0; Demo.node 2 1 0 0; Demo.node 1 9 0 0]).
Proof.
  apply (proj2 (proj2 (node_labels_last_wins
                         [Demo.node 1 0 0 0; Demo.node 2 1 0 0; Demo.node 1 9 0 0]))).
  exists [Demo.node 1 0 0 0; Demo.node 2 1 0 0], (Demo.node 1 9 0 0), [].
  repeat split. apply not_elem_of_nil.
Defined.
